(** * simple_autodiff: the operation protocol and the built-in operations

    A shallow embedding of [simple_autodiff/ops/tensor_op.py] (the
    [TensorOp] base class) and [simple_autodiff/ops/maths.py] (the seven
    built-in operations), with the properties of the specification that
    concern them.

    Layout:
    - the numeric backend (numpy's scalars and kernels) as an interface;
    - numpy arrays as shape + row-major data, with numpy's broadcasting;
    - Python values, exceptions, and the world of objects (array storage,
      tensors, the operation counter, the computation graph);
    - [TensorOp]: [__new__], [__init__], [get_unique_id], [forward],
      [backward];
    - the built-in operations, as classes with [_forward] and [_backward];
    - a backend of exact rationals on which the definitions evaluate;
    - the vocabulary of the statements;
    - the theorems. *)

From Stdlib Require Import ZArith QArith Qround Lia.
From stdpp Require Import base option list strings gmap pretty.

Open Scope string_scope.
Open Scope list_scope.
Open Scope nat_scope.

(** ** The numeric backend

    numpy is not part of the repository.  Its scalars and kernels are an
    interface: no algebraic law is assumed of them (float32 arithmetic has
    few), and a theorem that needs one states it as a hypothesis. *)

Class NumericBackend := {
  (** numbers: numpy array elements and Python scalars alike *)
  num : Type;
  (** the Python int literal [z] *)
  pyint : Z -> num;
  (** the Python float of integral value [z]: [1.], [float(n)] *)
  pyfloat : Z -> num;
  (** [astype(np.float32)] on one element *)
  f32 : num -> num;
  nadd : num -> num -> num;
  nsub : num -> num -> num;
  nmul : num -> num -> num;
  ndiv : num -> num -> num;
  (** [x ** e] *)
  npow : num -> num -> num;
  nneg : num -> num;
  (** [np.exp] on one element *)
  nexp : num -> num;
  (** [np.sum]: the full reduction of the elements in storage order *)
  nsum : list num -> num;
  (** the inner kernel of [np.matmul]: a row against a column *)
  ndot : list num -> list num -> num;
}.

(** ** Exceptions and results *)

Inductive exn :=
| TypeError (msg : string)
| AssertionError
| ValueError (msg : string)
| IndexError (msg : string)
| AttributeError (msg : string)
(** raised by the model alone, where a handle denotes no object of the
    world or a numpy case is outside the model; Python cannot get there *)
| SystemError (msg : string).

Inductive result (A : Type) :=
| Ok (a : A)
| Raise (e : exn).
Arguments Ok {A} a.
Arguments Raise {A} e.

Definition rbind {A B} (r : result A) (k : A -> result B) : result B :=
  match r with
  | Ok a => k a
  | Raise e => Raise e
  end.

Definition rmap {A B} (f : A -> B) (r : result A) : result B :=
  rbind r (fun a => Ok (f a)).

(** ** numpy arrays *)

Section Arrays.
Context `{NumericBackend}.

(** An array is its shape and its elements in row-major order.  A numpy
    scalar ([np.float32]) is an array of shape [()]. *)
Record ndarray := mk_array { shape : list nat; data : list num }.

(** [a.size] *)
Definition np_size (s : list nat) : nat := foldr Nat.mul 1 s.

Definition wf_array (a : ndarray) : Prop := length (data a) = np_size (shape a).

(** *** Broadcasting *)

(** [n] consecutive chunks of [sz] elements *)
Fixpoint chunks (sz n : nat) (d : list num) : list (list num) :=
  match n with
  | 0 => []
  | S n' => take sz d :: chunks sz n' (drop sz d)
  end.

(** numpy's rule on two shapes aligned at their last axis (here: reversed
    shapes): two dimensions agree when they are equal or one of them is 1 *)
Fixpoint broadcast_rev (s1 s2 : list nat) : option (list nat) :=
  match s1, s2 with
  | [], s => Some s
  | s, [] => Some s
  | d1 :: r1, d2 :: r2 =>
      match broadcast_rev r1 r2 with
      | Some r =>
          if decide (d1 = d2) then Some (d1 :: r)
          else if decide (d1 = 1) then Some (d2 :: r)
          else if decide (d2 = 1) then Some (d1 :: r)
          else None
      | None => None
      end
  end.

Definition broadcast_shapes (s1 s2 : list nat) : option (list nat) :=
  reverse <$> broadcast_rev (reverse s1) (reverse s2).

(** a shape padded with leading 1s to the rank of [tgt] *)
Definition pad_shape (tgt s : list nat) : list nat :=
  replicate (length tgt - length s) 1 ++ s.

(** can [src] (of the rank of [tgt]) be stretched to [tgt]? *)
Fixpoint stretchable (src tgt : list nat) : bool :=
  match src, tgt with
  | [], [] => true
  | s :: src', t :: tgt' =>
      (bool_decide (s = t) || bool_decide (s = 1)) && stretchable src' tgt'
  | _, _ => false
  end.

(** the elements of an array of shape [src] repeated along the axes of
    length 1 to fill [tgt] *)
Fixpoint stretch (src tgt : list nat) (d : list num) : list num :=
  match src, tgt with
  | s :: src', t :: tgt' =>
      if decide (s = t)
      then concat (stretch src' tgt' <$> chunks (np_size src') s d)
      else concat (replicate t (stretch src' tgt' d))
  | _, _ => d
  end.

(** [np.broadcast_to(a, tgt)] *)
Definition broadcast_to (a : ndarray) (tgt : list nat) : option ndarray :=
  if decide (length (shape a) <= length tgt) then
    let src := pad_shape tgt (shape a) in
    if stretchable src tgt then Some (mk_array tgt (stretch src tgt (data a)))
    else None
  else None.

(** a binary ufunc ([+], [-], [*]) on two arrays *)
Definition elementwise (f : num -> num -> num) (a b : ndarray) : result ndarray :=
  match broadcast_shapes (shape a) (shape b) with
  | Some s =>
      match broadcast_to a s, broadcast_to b s with
      | Some a', Some b' => Ok (mk_array s (zip_with f (data a') (data b')))
      | _, _ => Raise (ValueError "operands could not be broadcast together")
      end
  | None => Raise (ValueError "operands could not be broadcast together")
  end.

Definition np_add := elementwise nadd.
Definition np_sub := elementwise nsub.
Definition np_mul := elementwise nmul.

(** a unary ufunc, or a binary one with a Python scalar on one side *)
Definition np_map (f : num -> num) (a : ndarray) : ndarray :=
  mk_array (shape a) (f <$> data a).

(** [a ** e], [e * a], [a * e], [-a], [np.exp(a)] with [e] a scalar *)
Definition np_pow_scalar (a : ndarray) (e : num) : ndarray := np_map (fun x => npow x e) a.
Definition np_scalar_mul (e : num) (a : ndarray) : ndarray := np_map (fun x => nmul e x) a.
Definition np_mul_scalar (a : ndarray) (e : num) : ndarray := np_map (fun x => nmul x e) a.
Definition np_neg (a : ndarray) : ndarray := np_map nneg a.
Definition np_exp (a : ndarray) : ndarray := np_map nexp a.

(** [a.copy()] and [a.astype(np.float32)] *)
Definition np_copy (a : ndarray) : ndarray := a.
Definition np_astype_float32 (a : ndarray) : ndarray := np_map f32 a.

(** [np.sum(a)]: a numpy scalar *)
Definition np_sum (a : ndarray) : ndarray := mk_array [] [nsum (data a)].

(** a shape without up to [n] of its leading axes of length 1 *)
Fixpoint strip_ones (n : nat) (s : list nat) : list nat :=
  match n, s with
  | S n', 1 :: s' => strip_ones n' s'
  | _, _ => s
  end.

(** [np.full(s, fill)]: an array of shape [s] into which [fill] is copied
    ([np.copyto]): [fill] is broadcast to [s], after the leading axes of
    length 1 that it has beyond the rank of [s] are dropped *)
Definition np_full (s : list nat) (fill : ndarray) : result ndarray :=
  let src := strip_ones (length (shape fill) - length s) (shape fill) in
  match broadcast_to (mk_array src (data fill)) s with
  | Some r => Ok r
  | None => Raise (ValueError "could not broadcast input array")
  end.

(** *** Transposition and the matrix product *)

(** all the multi-indices of a shape, in row-major order *)
Fixpoint indices (s : list nat) : list (list nat) :=
  match s with
  | [] => [[]]
  | d :: s' => flat_map (fun i => cons i <$> indices s') (seq 0 d)
  end.

(** the row-major offset of a multi-index *)
Definition offset (s idx : list nat) : nat :=
  fold_left (fun acc di => acc * di.1 + di.2) (zip s idx) 0.

(** [a.T]: the axes reversed *)
Definition np_T (a : ndarray) : ndarray :=
  let s := reverse (shape a) in
  mk_array s (omap (fun idx => data a !! offset (shape a) (reverse idx)) (indices s)).

(** row [i] of a matrix with [k] columns *)
Definition row (k : nat) (d : list num) (i : nat) : list num :=
  take k (drop (i * k) d).

(** column [j] of a matrix with [k] rows and [n] columns *)
Definition col (k n : nat) (d : list num) (j : nat) : list num :=
  omap (fun r => d !! (r * n + j)) (seq 0 k).

(** [np.matmul(a, b)] on operands of rank 1 or 2 *)
Definition np_matmul (a b : ndarray) : result ndarray :=
  let mismatch := Raise (ValueError "matmul: mismatch in its core dimension") in
  match shape a, shape b with
  | [m; k], [k'; n] =>
      if decide (k = k') then
        Ok (mk_array [m; n]
              (flat_map (fun i => (fun j => ndot (row k (data a) i) (col k n (data b) j)) <$> seq 0 n)
                        (seq 0 m)))
      else mismatch
  | [k], [k'; n] =>
      if decide (k = k') then
        Ok (mk_array [n] ((fun j => ndot (data a) (col k n (data b) j)) <$> seq 0 n))
      else mismatch
  | [m; k], [k'] =>
      if decide (k = k') then
        Ok (mk_array [m] ((fun i => ndot (row k (data a) i) (data b)) <$> seq 0 m))
      else mismatch
  | [k], [k'] =>
      if decide (k = k') then Ok (mk_array [] [ndot (data a) (data b)])
      else mismatch
  | [], _ | _, [] => Raise (ValueError "matmul: operand does not have enough dimensions")
  | _, _ => Raise (SystemError "matmul: stacked operands are outside the model")
  end.

End Arrays.

Arguments ndarray {_}.
Arguments mk_array {_} shape data.

(** ** Python values *)

(** The handle of an array object (its storage) and of a Tensor object:
    two objects are the same object when their handles are equal. *)
Definition loc := nat.
Definition tid := nat.

(** The values an operation caches or returns as gradients, over a
    representation [A] of arrays: [ndarray] for values, [loc] for array
    objects in the world, [aref] for the arrays a computation names. *)
#[warnings="-register-all"]
Inductive pyval `{NumericBackend} (A : Type) :=
| PNone
| PNum (x : num)
| PArr (a : A)
(** a tuple of ints: [a.shape] *)
| PShape (s : list nat)
| PTuple (l : list (pyval A))
| PList (l : list (pyval A)).
Arguments PNone {_ A}.
Arguments PNum {_ A} x.
Arguments PArr {_ A} a.
Arguments PShape {_ A} s.
Arguments PTuple {_ A} l.
Arguments PList {_ A} l.

(** [isinstance(v, tuple)] *)
Definition is_tuple `{NumericBackend} {A} (v : pyval A) : bool :=
  match v with
  | PTuple _ | PShape _ => true
  | _ => false
  end.

(** the arrays inside a value *)
Fixpoint pyval_arrays `{NumericBackend} {A} (v : pyval A) : list A :=
  match v with
  | PArr a => [a]
  | PTuple l | PList l => flat_map pyval_arrays l
  | _ => []
  end.

(** a value with its arrays translated, when all of them can be *)
Fixpoint pyval_mapM `{NumericBackend} {A B} (f : A -> option B) (v : pyval A) : option (pyval B) :=
  match v with
  | PNone => Some PNone
  | PNum x => Some (PNum x)
  | PShape s => Some (PShape s)
  | PArr a => PArr <$> f a
  | PTuple l => PTuple <$> mapM (pyval_mapM f) l
  | PList l => PList <$> mapM (pyval_mapM f) l
  end.

(** A positional argument of an invocation: a Tensor or something else. *)
Inductive pyarg `{NumericBackend} :=
| ATensor (t : tid)
| AInt (z : Z)
| AFloat (x : num)
| AObject (type_name : string).

(** [isinstance(x, Tensor)] *)
Definition is_Tensor `{NumericBackend} (x : pyarg) : bool :=
  match x with ATensor _ => true | _ => false end.

(** [type(x)], as an f-string prints it *)
Definition type_repr `{NumericBackend} (x : pyarg) : string :=
  match x with
  | ATensor _ => "<class 'simple_autodiff.tensor.Tensor'>"
  | AInt _ => "<class 'int'>"
  | AFloat _ => "<class 'float'>"
  | AObject n => n
  end.

(** [[t for t in input_tensors if isinstance(t, Tensor)]] *)
Definition tensors_of `{NumericBackend} (args : list pyarg) : list tid :=
  omap (fun x => match x with ATensor t => Some t | _ => None end) args.

(** ** Operation classes *)

(** An array named by a forward computation: its [i]-th argument (the
    same object), or the [j]-th array it creates. *)
Inductive aref :=
| Arg (i : nat)
| New (j : nat).

(** What [_forward] returns: [output, cache], and the arrays it creates
    for them.  [_forward] is a function of the values of its arguments and
    of the keyword parameters, which are numbers (options such as an
    exponent); which array objects it returns is kept, so that [return
    output, tensor_data] caches the argument itself and [return output,
    output] caches the output itself. *)
Record computed `{NumericBackend} := {
  created : list ndarray;
  output : aref;
  cache : pyval aref;
}.

(** A subclass of [TensorOp]: its name and the two methods it implements. *)
Record OpClass `{NumericBackend} := {
  __name__ : string;
  _forward : list ndarray -> gmap string num -> result computed;
  _backward : ndarray -> pyval ndarray -> gmap string num -> result (pyval ndarray);
}.

(** ** The world of objects *)

Module Tensor.

(** Modelled from the spec: the class [Tensor] of
    [simple_autodiff/tensor.py], of which the specification gives the
    attributes [data], [grad] (absent until a backward pass) and [name]. *)
Record t := { data : loc; grad : option loc; name : string }.

End Tensor.

(** An instance of a [TensorOp] subclass and its attributes; [cache] and
    [kwargs] exist once [forward] has set them. *)
Record instance `{NumericBackend} := {
  __class__ : OpClass;
  name : string;
  self_cache : option (pyval loc);
  self_kwargs : option (gmap string num);
}.

(** The computation graph is kept by [simple_autodiff/autodiff.py], of
    which [TensorOp] calls [add_op_to_graph(op, inputs, output)]: the
    storage and the function are an interface. *)
Class GraphRegistry `{NumericBackend} := {
  graph_t : Type;
  add_op_to_graph : instance -> list tid -> tid -> graph_t -> graph_t;
}.

Section World.
Context `{NumericBackend} `{!GraphRegistry}.

Record world := {
  (** [TensorOp.op_count] *)
  op_count : nat;
  (** the array objects, by handle *)
  arrays : list ndarray;
  (** the Tensor objects, by handle *)
  tensors : list Tensor.t;
  graph : graph_t;
}.

(** Computations on the world that may raise; what was done before the
    exception stays done. *)
Definition M (X : Type) : Type := world -> result X * world.

Definition ret {X} (x : X) : M X := fun w => (Ok x, w).
Definition raise {X} (e : exn) : M X := fun w => (Raise e, w).
Definition bind {X Y} (m : M X) (k : X -> M Y) : M Y :=
  fun w =>
    match m w with
    | (Ok x, w') => k x w'
    | (Raise e, w') => (Raise e, w')
    end.
Definition lift {X} (r : result X) : M X := fun w => (r, w).

End World.

Declare Scope py_scope.
Delimit Scope py_scope with py.
Notation "x <- c ;; k" := (bind c (fun x => k))
  (at level 100, c at next level, right associativity) : py_scope.
Open Scope py_scope.

(** ** Objects of the world *)

Section Heap.
Context `{NumericBackend} `{!GraphRegistry}.

(** a new array object holding [a] *)
Definition new_array (a : ndarray) : M loc :=
  fun w =>
    (Ok (length (arrays w)),
     {| op_count := op_count w; arrays := arrays w ++ [a];
        tensors := tensors w; graph := graph w |}).

(** the array object behind a handle *)
Definition get_array (l : loc) : M ndarray :=
  fun w =>
    match arrays w !! l with
    | Some a => (Ok a, w)
    | None => (Raise (SystemError "no such array"), w)
    end.

(** the Tensor object behind a handle *)
Definition get_tensor (t : tid) : M Tensor.t :=
  fun w =>
    match tensors w !! t with
    | Some T => (Ok T, w)
    | None => (Raise (SystemError "no such tensor"), w)
    end.

(** [arr.copy()] and [arr.astype(np.float32)]: each makes a new array *)
Definition copy (l : loc) : M loc := a <- get_array l ;; new_array (np_copy a).
Definition astype_float32 (l : loc) : M loc :=
  a <- get_array l ;; new_array (np_astype_float32 a).

(** Modelled from the spec: the constructor [Tensor(data, name=...)] of
    [simple_autodiff/tensor.py], which wraps the array it is given in a new
    Tensor object without a gradient. *)
Definition Tensor_new (d : loc) (n : string) : M tid :=
  fun w =>
    (Ok (length (tensors w)),
     {| op_count := op_count w; arrays := arrays w;
        tensors := tensors w ++ [{| Tensor.data := d; Tensor.grad := None; Tensor.name := n |}];
        graph := graph w |}).

(** the call [add_op_to_graph(op, inputs, output)] *)
Definition register (op : instance) (inputs : list tid) (out : tid) : M unit :=
  fun w =>
    (Ok tt,
     {| op_count := op_count w; arrays := arrays w; tensors := tensors w;
        graph := add_op_to_graph op inputs out (graph w) |}).

Fixpoint new_arrays (l : list ndarray) : M (list loc) :=
  match l with
  | [] => ret []
  | a :: l' => x <- new_array a ;; xs <- new_arrays l' ;; ret (x :: xs)
  end.

Fixpoint get_arrays (l : list loc) : M (list ndarray) :=
  match l with
  | [] => ret []
  | x :: l' => a <- get_array x ;; rest <- get_arrays l' ;; ret (a :: rest)
  end.

(** the array object named by a forward computation, given the handles of
    its arguments and of the arrays it created *)
Definition resolve (args news : list loc) (r : aref) : option loc :=
  match r with
  | Arg i => args !! i
  | New j => news !! j
  end.

(** a cached value with its array objects read *)
Definition read_pyval (w : world) (v : pyval loc) : option (pyval ndarray) :=
  pyval_mapM (fun l => arrays w !! l) v.

End Heap.

(** ** [class TensorOp] *)

Module TensorOp.
Section TensorOp.
Context `{NumericBackend} `{!GraphRegistry}.

(** [TensorOp.op_count += 1; return TensorOp.op_count] *)
Definition get_unique_id : M nat :=
  fun w =>
    let w' := {| op_count := op_count w + 1; arrays := arrays w;
                 tensors := tensors w; graph := graph w |} in
    (Ok (op_count w'), w').

(** [super().__new__(cls)]: an instance without attributes *)
Definition object_new (cls : OpClass) : instance :=
  {| __class__ := cls; name := ""; self_cache := None; self_kwargs := None |}.

Definition __init__ (self : instance) : M instance :=
  unique_id <- get_unique_id ;;
  ret {| __class__ := __class__ self;
         name := "Op:" ++ __name__ (__class__ self) ++ ":" ++ pretty unique_id;
         self_cache := self_cache self; self_kwargs := self_kwargs self |}.

(** the loop of [forward]: the data of each Tensor argument, copied and
    cast; a type error at the first argument that is no Tensor *)
Fixpoint forward_loop (input_tensors : list pyarg) (input_tensor_data : list loc)
  : M (list loc) :=
  match input_tensors with
  | [] => ret input_tensor_data
  | tensor :: rest =>
      match tensor with
      | ATensor t =>
          T <- get_tensor t ;;
          c <- copy (Tensor.data T) ;;
          tensor_data <- astype_float32 c ;;
          forward_loop rest (input_tensor_data ++ [tensor_data])
      | _ => raise (TypeError ("Illegal input type: " ++ type_repr tensor))
      end
  end.

(** [forward]: returns the output Tensor; [self] with its new attributes
    is returned with it. *)
Definition forward (self : instance) (input_tensors : list pyarg) (kwargs : gmap string num)
  : M (instance * pyarg) :=
  input_tensor_data <- forward_loop input_tensors [] ;;
  values <- get_arrays input_tensor_data ;;
  r <- lift (_forward (__class__ self) values kwargs) ;;
  news <- new_arrays (created r) ;;
  match resolve input_tensor_data news (output r),
        pyval_mapM (resolve input_tensor_data news) (cache r) with
  | Some output_data, Some cache =>
      let self' := {| __class__ := __class__ self; name := name self;
                      self_cache := Some cache; self_kwargs := Some kwargs |} in
      t <- Tensor_new output_data (__name__ (__class__ self)) ;;
      ret (self', ATensor t)
  | _, _ => raise (SystemError "the computation names no array")
  end.

Definition __new__ (cls : OpClass) (input_tensors : list pyarg) (kwargs : gmap string num)
  : M tid :=
  tensorop_instance <- __init__ (object_new cls) ;;
  r <- forward tensorop_instance input_tensors kwargs ;;
  let tensorop_instance := r.1 in
  let output_tensor := r.2 in
  let input_tensors := tensors_of input_tensors in
  match output_tensor with
  | ATensor t =>
      _ <- register tensorop_instance input_tensors t ;;
      ret t
  | _ => raise (TypeError ("Only Tensor objects can be added to tensor registry, cannot add: "
                           ++ type_repr output_tensor))
  end.

(** [backward]: reads the world, changes nothing *)
Definition backward (self : instance) (upstream_grads : ndarray) (w : world)
  : result (pyval ndarray) :=
  match self_cache self with
  | None => Raise (AttributeError "cache")
  | Some c =>
      match self_kwargs self with
      | None => Raise (AttributeError "kwargs")
      | Some kwargs =>
          match read_pyval w c with
          | None => Raise (SystemError "no such array")
          | Some cache =>
              rbind (_backward (__class__ self) upstream_grads cache kwargs)
                (fun grads =>
                   if is_tuple grads then Ok grads
                   else Raise (TypeError "Must return tuple of grads wrt input tensors."))
          end
      end
  end.

(** [raise NotImplemented(...)]: [NotImplemented] is no exception class
    and cannot be called *)
Definition not_callable : exn := TypeError "'NotImplementedType' object is not callable".

(** the methods a subclass inherits when it does not define them (from
    here on in this module the names are those of the base methods) *)
Definition _forward (input_tensor_data : list ndarray) (kwargs : gmap string num)
  : result computed := Raise not_callable.

Definition _backward (upstream_grad : ndarray) (cache : pyval ndarray)
    (kwargs : gmap string num) : result (pyval ndarray) :=
  if decide (kwargs = ∅) then Raise not_callable
  else Raise (TypeError "_backward() got an unexpected keyword argument").

(** the base class itself *)
Definition cls : OpClass := Build_OpClass _ "TensorOp" _forward _backward.

End TensorOp.
End TensorOp.

(** ** The built-in operations ([maths.py]) *)

(** Python binds the arguments of a call to the parameters of the method
    and raises a type error when they do not fit. *)
Definition signature_error : exn := TypeError "the arguments do not fit the signature".

(** The cache handed to [_backward] is the one [_forward] returned; on a
    cache of another form the model stops. *)
Definition foreign_cache : exn := SystemError "the cache of another operation".

Module Add.
Section Add.
Context `{NumericBackend}.

Definition _forward (args : list ndarray) (kwargs : gmap string num) : result computed :=
  match args with
  | [tensor_data_1; tensor_data_2] =>
      if decide (kwargs = ∅) then
        if decide (shape tensor_data_1 = shape tensor_data_2) then
          rbind (np_add tensor_data_1 tensor_data_2) (fun s =>
          Ok {| created := [s]; output := New 0; cache := PTuple [] |})
        else Raise AssertionError
      else Raise signature_error
  | _ => Raise signature_error
  end.

Definition _backward (upstream_grad : ndarray) (_c : pyval ndarray) (kwargs : gmap string num)
  : result (pyval ndarray) :=
  if decide (kwargs = ∅) then Ok (PTuple [PArr upstream_grad; PArr upstream_grad])
  else Raise signature_error.

Definition cls : OpClass := Build_OpClass _ "Add" _forward _backward.

End Add.
End Add.

Module Subtract.
Section Subtract.
Context `{NumericBackend}.

Definition _forward (args : list ndarray) (kwargs : gmap string num) : result computed :=
  match args with
  | [tensor_data_1; tensor_data_2] =>
      if decide (kwargs = ∅) then
        if decide (shape tensor_data_1 = shape tensor_data_2) then
          rbind (np_sub tensor_data_1 tensor_data_2) (fun d =>
          Ok {| created := [d]; output := New 0; cache := PTuple [] |})
        else Raise AssertionError
      else Raise signature_error
  | _ => Raise signature_error
  end.

Definition _backward (upstream_grad : ndarray) (_c : pyval ndarray) (kwargs : gmap string num)
  : result (pyval ndarray) :=
  if decide (kwargs = ∅) then Ok (PTuple [PArr upstream_grad; PArr (np_neg upstream_grad)])
  else Raise signature_error.

Definition cls : OpClass := Build_OpClass _ "Subtract" _forward _backward.

End Subtract.
End Subtract.

Module Power.
Section Power.
Context `{NumericBackend}.

(** the keyword [scalar_exponent=2] of both methods *)
Definition scalar_exponent (kwargs : gmap string num) : result num :=
  if decide (dom kwargs ⊆ ({[ "scalar_exponent" ]} : gset string)) then
    Ok (default (pyint 2) (kwargs !! "scalar_exponent"))
  else Raise signature_error.

Definition _forward (args : list ndarray) (kwargs : gmap string num) : result computed :=
  match args with
  | [tensor_data] =>
      rbind (scalar_exponent kwargs) (fun scalar_exponent =>
      let output := np_pow_scalar tensor_data scalar_exponent in
      Ok {| created := [output]; output := New 0; cache := PArr (Arg 0) |})
  | [tensor_data; exponent] =>
      (* a second Tensor argument lands in [scalar_exponent] *)
      if decide (kwargs = ∅) then
        rbind (elementwise npow tensor_data exponent) (fun output =>
        Ok {| created := [output]; output := New 0; cache := PArr (Arg 0) |})
      else Raise signature_error
  | _ => Raise signature_error
  end.

Definition _backward (upstream_grad : ndarray) (cache : pyval ndarray) (kwargs : gmap string num)
  : result (pyval ndarray) :=
  rbind (scalar_exponent kwargs) (fun scalar_exponent =>
  match cache with
  | PArr tensor_data =>
      let grad :=
        np_scalar_mul scalar_exponent
          (np_pow_scalar tensor_data (nsub scalar_exponent (pyint 1))) in
      rbind (np_mul grad upstream_grad) (fun g => Ok (PTuple [PArr g]))
  | _ => Raise foreign_cache
  end).

Definition cls : OpClass := Build_OpClass _ "Power" _forward _backward.

End Power.
End Power.

Module Exp.
Section Exp.
Context `{NumericBackend}.

Definition _forward (args : list ndarray) (kwargs : gmap string num) : result computed :=
  match args with
  | [tensor_data] =>
      if decide (kwargs = ∅) then
        let output := np_exp tensor_data in
        Ok {| created := [output]; output := New 0; cache := PArr (New 0) |}
      else Raise signature_error
  | _ => Raise signature_error
  end.

Definition _backward (upstream_grad : ndarray) (cache : pyval ndarray) (kwargs : gmap string num)
  : result (pyval ndarray) :=
  if decide (kwargs = ∅) then
    match cache with
    | PArr output => rbind (np_mul output upstream_grad) (fun g => Ok (PTuple [PArr g]))
    | _ => Raise foreign_cache
    end
  else Raise signature_error.

Definition cls : OpClass := Build_OpClass _ "Exp" _forward _backward.

End Exp.
End Exp.

Module MatMul.
Section MatMul.
Context `{NumericBackend}.

(** [tensor_data_1.shape[-1] == tensor_data_2.shape[0]] *)
Definition inner_dims (s1 s2 : list nat) : result bool :=
  match last s1 with
  | None => Raise (IndexError "tuple index out of range")
  | Some d1 =>
      match head s2 with
      | None => Raise (IndexError "tuple index out of range")
      | Some d2 => Ok (bool_decide (d1 = d2))
      end
  end.

Definition _forward (args : list ndarray) (kwargs : gmap string num) : result computed :=
  match args with
  | [tensor_data_1; tensor_data_2] =>
      if decide (kwargs = ∅) then
        rbind (inner_dims (shape tensor_data_1) (shape tensor_data_2)) (fun same =>
        if same : bool then
          rbind (np_matmul tensor_data_1 tensor_data_2) (fun output =>
          Ok {| created := [output]; output := New 0;
                cache := PTuple [PArr (Arg 0); PArr (Arg 1)] |})
        else Raise AssertionError)
      else Raise signature_error
  | _ => Raise signature_error
  end.

Definition _backward (upstream_grad : ndarray) (cache : pyval ndarray) (kwargs : gmap string num)
  : result (pyval ndarray) :=
  if decide (kwargs = ∅) then
    match cache with
    | PTuple [PArr tensor_data_1; PArr tensor_data_2] =>
        rbind (np_matmul upstream_grad (np_T tensor_data_2)) (fun tensor_1_grads =>
        rbind (np_matmul (np_T tensor_data_1) upstream_grad) (fun tensor_2_grads =>
        Ok (PTuple [PArr tensor_1_grads; PArr tensor_2_grads])))
    | _ => Raise foreign_cache
    end
  else Raise signature_error.

Definition cls : OpClass := Build_OpClass _ "MatMul" _forward _backward.

End MatMul.
End MatMul.

Module Sum.
Section Sum.
Context `{NumericBackend}.

Definition _forward (args : list ndarray) (kwargs : gmap string num) : result computed :=
  match args with
  | [tensor_data] =>
      if decide (kwargs = ∅) then
        Ok {| created := [np_sum tensor_data]; output := New 0;
              cache := PShape (shape tensor_data) |}
      else Raise signature_error
  | _ => Raise signature_error
  end.

Definition _backward (upstream_grad : ndarray) (cache : pyval ndarray) (kwargs : gmap string num)
  : result (pyval ndarray) :=
  if decide (kwargs = ∅) then
    match cache with
    | PShape tensor_shape =>
        rbind (np_full tensor_shape upstream_grad) (fun grad => Ok (PTuple [PArr grad]))
    | _ => Raise foreign_cache
    end
  else Raise signature_error.

Definition cls : OpClass := Build_OpClass _ "Sum" _forward _backward.

End Sum.
End Sum.

Module Mean.
Section Mean.
Context `{NumericBackend}.

(** [1. / float(tensor_data.size)] *)
Definition factor_of (a : ndarray) : num :=
  ndiv (pyfloat 1) (pyfloat (Z.of_nat (np_size (shape a)))).

Definition _forward (args : list ndarray) (kwargs : gmap string num) : result computed :=
  match args with
  | [tensor_data] =>
      if decide (kwargs = ∅) then
        if decide (0 < np_size (shape tensor_data)) then
          let tensor_shape := shape tensor_data in
          let factor := factor_of tensor_data in
          let output := np_mul_scalar (np_sum tensor_data) factor in
          let cache := PTuple [PShape tensor_shape; PNum factor] in
          Ok {| created := [output]; output := New 0; cache := cache |}
        else Raise AssertionError
      else Raise signature_error
  | _ => Raise signature_error
  end.

Definition _backward (upstream_grad : ndarray) (cache : pyval ndarray) (kwargs : gmap string num)
  : result (pyval ndarray) :=
  if decide (kwargs = ∅) then
    match cache with
    | PTuple [PShape tensor_shape; PNum factor] =>
        rbind (np_full tensor_shape upstream_grad) (fun full =>
        let grad := np_mul_scalar full factor in
        Ok (PTuple [PArr grad]))
    | _ => Raise foreign_cache
    end
  else Raise signature_error.

Definition cls : OpClass := Build_OpClass _ "Mean" _forward _backward.

End Mean.
End Mean.

(** ** A backend on which the definitions evaluate *)

Module Exact.

(** Exact rational arithmetic in place of float32 (no rounding, so the
    cast is the identity); results are kept in lowest terms.  Powers take
    the integral part of the exponent, and [2^x] stands in for [e^x], which
    has no rational value. *)
#[export] Instance backend : NumericBackend := {|
  num := Q;
  pyint := inject_Z;
  pyfloat := inject_Z;
  f32 := Qred;
  nadd := fun x y => Qred (x + y);
  nsub := fun x y => Qred (x - y);
  nmul := fun x y => Qred (x * y);
  ndiv := fun x y => Qred (x / y);
  npow := fun x e => Qred (Qpower x (Qfloor e));
  nneg := fun x => Qred (- x);
  nexp := fun x => Qred (Qpower 2 (Qfloor x));
  nsum := fun l => Qred (foldr Qplus 0%Q l);
  ndot := fun u v => Qred (foldr Qplus 0%Q (zip_with Qmult u v));
|}.

(** Modelled from the spec: the computation graph of
    [simple_autodiff/autodiff.py], a mapping from an output Tensor to the
    operation that produced it and its ordered inputs, to which
    [add_op_to_graph] appends an entry. *)
#[export] Instance registry : GraphRegistry := {|
  graph_t := list (tid * (instance * list tid));
  add_op_to_graph := fun op inputs out g => (g ++ [(out, (op, inputs))])%list;
|}.

(** a vector and a matrix of integers, a scalar, an array of rationals *)
Definition vec (l : list Z) : ndarray := mk_array [length l] (inject_Z <$> l).
Definition mat (m n : nat) (l : list Z) : ndarray := mk_array [m; n] (inject_Z <$> l).
Definition scalar (q : Q) : ndarray := mk_array [] [q].
Definition array (s : list nat) (l : list Q) : ndarray := mk_array s l.

(** a world of leaf tensors, one for each array *)
Definition leaves (l : list ndarray) : world :=
  {| op_count := 0;
     arrays := l;
     tensors := (fun i => {| Tensor.data := i; Tensor.grad := None; Tensor.name := "leaf" |})
                <$> seq 0 (length l);
     graph := [] |}.

End Exact.

(** ** Vocabulary of the statements *)

Section Vocabulary.
Context `{NumericBackend} `{!GraphRegistry}.

(** Python keeps no reference to an object that does not exist: every
    Tensor of the world holds an array of the world. *)
Definition wf_world (w : world) : Prop :=
  Forall (fun T => Tensor.data T < length (arrays w)) (tensors w).

(** the array a Tensor of the world holds *)
Definition tensor_value (w : world) (t : tid) : option ndarray :=
  match tensors w !! t with
  | Some T => arrays w !! Tensor.data T
  | None => None
  end.

(** what [forward] makes of the data [a] of a Tensor argument *)
Definition float32_copy (a : ndarray) : ndarray := np_astype_float32 (np_copy a).

(** the first positional argument that is no Tensor *)
Fixpoint first_non_tensor (args : list pyarg) : option pyarg :=
  match args with
  | [] => None
  | x :: rest => if is_Tensor x then first_non_tensor rest else Some x
  end.

(** the value of an array a forward computation names *)
Definition value_of (values : list ndarray) (r : computed) (x : aref) : option ndarray :=
  match x with
  | Arg i => values !! i
  | New j => created r !! j
  end.

(** the world with more array objects, and with the operation counter
    advanced *)
Definition extend (w : world) (l : list ndarray) : world :=
  {| op_count := op_count w; arrays := arrays w ++ l;
     tensors := tensors w; graph := graph w |}.

Definition bump (w : world) : world :=
  {| op_count := op_count w + 1; arrays := arrays w;
     tensors := tensors w; graph := graph w |}.

(** the instance [__new__] hands to [forward]: initialised, named after
    the class and the new value of the counter *)
Definition initialised (cls : OpClass) (w : world) : instance :=
  {| __class__ := cls;
     name := "Op:" ++ __name__ cls ++ ":" ++ pretty (op_count w + 1);
     self_cache := None; self_kwargs := None |}.

(** the instance once [forward] has set its attributes *)
Definition with_attributes (self : instance) (c : pyval loc) (kwargs : gmap string num)
  : instance :=
  {| __class__ := __class__ self; name := name self;
     self_cache := Some c; self_kwargs := Some kwargs |}.

(** the world with one more Tensor, and with one more entry in the graph *)
Definition with_tensor (w : world) (T : Tensor.t) : world :=
  {| op_count := op_count w; arrays := arrays w;
     tensors := tensors w ++ [T]; graph := graph w |}.

Definition registered (w : world) (op : instance) (inputs : list tid) (out : tid) : world :=
  {| op_count := op_count w; arrays := arrays w; tensors := tensors w;
     graph := add_op_to_graph op inputs out (graph w) |}.

(** does a class name contain a colon?  (a Python identifier does not) *)
Fixpoint contains_colon (s : string) : bool :=
  match s with
  | EmptyString => false
  | String a s' => if decide (String a "" = ":") then true else contains_colon s'
  end.

(** what [backward] makes of the result of the gradient computation *)
Definition checked (r : result (pyval ndarray)) : result (pyval ndarray) :=
  match r with
  | Ok grads =>
      if is_tuple grads then Ok grads
      else Raise (TypeError "Must return tuple of grads wrt input tensors.")
  | Raise e => Raise e
  end.

(** the arrays the loop of [forward] creates for Tensor arguments that
    hold [vals], and the handles of the float32 copies among them *)
Definition copies (vals : list ndarray) : list ndarray :=
  flat_map (fun a => [np_copy a; float32_copy a]) vals.

Fixpoint copy_locs (base n : nat) : list loc :=
  match n with
  | 0 => []
  | S n' => S base :: copy_locs (S (S base)) n'
  end.

(** The forward preconditions of the built-in operations, on the values
    of the inputs: unequal shapes for [Add] and [Subtract], unequal inner
    dimensions for [MatMul], no element for [Mean]. *)
Inductive precondition_violated : OpClass -> list ndarray -> Prop :=
| Add_unequal_shapes a b :
    shape a <> shape b -> precondition_violated Add.cls [a; b]
| Subtract_unequal_shapes a b :
    shape a <> shape b -> precondition_violated Subtract.cls [a; b]
| MatMul_inner_mismatch a b d1 d2 :
    last (shape a) = Some d1 -> head (shape b) = Some d2 -> d1 <> d2 ->
    precondition_violated MatMul.cls [a; b]
| Mean_empty a :
    np_size (shape a) = 0 -> precondition_violated Mean.cls [a].

(** the built-in operations and the number of Tensors each is meant for *)
Inductive builtin : OpClass -> nat -> Prop :=
| builtin_Add : builtin Add.cls 2
| builtin_Subtract : builtin Subtract.cls 2
| builtin_Power : builtin Power.cls 1
| builtin_Exp : builtin Exp.cls 1
| builtin_MatMul : builtin MatMul.cls 2
| builtin_Sum : builtin Sum.cls 1
| builtin_Mean : builtin Mean.cls 1.

End Vocabulary.

Module Lopsided.
Section Lopsided.
Context `{NumericBackend}.

(** A subclass as a user of the library may write one: it takes two
    inputs, returns the first and caches nothing, and its gradient
    computation returns a tuple of one gradient only. *)
Definition _forward (args : list ndarray) (kwargs : gmap string num) : result computed :=
  match args with
  | [tensor_data_1; tensor_data_2] =>
      if decide (kwargs = ∅) then
        Ok {| created := []; output := Arg 0; cache := PTuple [] |}
      else Raise signature_error
  | _ => Raise signature_error
  end.

Definition _backward (upstream_grad : ndarray) (_c : pyval ndarray) (kwargs : gmap string num)
  : result (pyval ndarray) :=
  if decide (kwargs = ∅) then Ok (PTuple [PArr upstream_grad])
  else Raise signature_error.

Definition cls : OpClass := Build_OpClass _ "Lopsided" _forward _backward.

End Lopsided.
End Lopsided.

(** * Facts about arrays *)

Section ArrayFacts.
Context `{NumericBackend}.

Lemma np_size_cons d s : np_size (d :: s) = d * np_size s.
Proof. reflexivity. Qed.

Lemma np_size_ones k s : np_size (replicate k 1 ++ s) = np_size s.
Proof. induction k as [|k IH]; simpl; [done | rewrite Nat.add_0_r; exact IH]. Qed.

Lemma chunks_length sz n d : length (chunks sz n d) = n.
Proof. revert d; induction n as [|n IH]; intros d; simpl; [done | by rewrite IH]. Qed.

Lemma concat_chunks sz n d : length d = n * sz -> concat (chunks sz n d) = d.
Proof.
  revert d; induction n as [|n IH]; intros d Hd; simpl in *.
  - by destruct d.
  - rewrite IH; [apply take_drop |]. rewrite length_drop. lia.
Qed.

Lemma chunks_Forall sz n d :
  length d = n * sz -> Forall (fun c => length c = sz) (chunks sz n d).
Proof.
  revert d; induction n as [|n IH]; intros d Hd; simpl in *; constructor.
  - rewrite length_take. lia.
  - apply IH. rewrite length_drop. lia.
Qed.

Lemma length_concat_uniform {A} (k : nat) (ls : list (list A)) :
  Forall (fun c => length c = k) ls -> length (concat ls) = length ls * k.
Proof.
  induction 1 as [|c ls Hc _ IH]; simpl; [done |].
  rewrite length_app, IH, Hc. lia.
Qed.

Lemma stretch_same s d : length d = np_size s -> stretch s s d = d.
Proof.
  revert d; induction s as [|n s IH]; intros d Hd; simpl; [done |].
  rewrite decide_True by done.
  rewrite np_size_cons in Hd.
  transitivity (concat (chunks (np_size s) n d)); [| by apply concat_chunks].
  f_equal. rewrite <- (list_fmap_id (chunks (np_size s) n d)) at 2.
  apply Forall_fmap_ext.
  eapply Forall_impl; [by apply chunks_Forall |].
  intros c Hc. by apply IH.
Qed.

Lemma stretchable_same s : stretchable s s = true.
Proof.
  induction s as [|n s IH]; simpl; [done |].
  by rewrite bool_decide_eq_true_2, IH.
Qed.

Lemma stretch_length src tgt d :
  stretchable src tgt = true -> length d = np_size src ->
  length (stretch src tgt d) = np_size tgt.
Proof.
  revert tgt d; induction src as [|s src IH]; intros [|t tgt] d Hs Hd;
    simpl in *; try done.
  apply andb_prop in Hs as [Hdim Hs].
  destruct (decide (s = t)) as [->|Hne].
  - rewrite (length_concat_uniform (np_size tgt)).
    + by rewrite length_fmap, chunks_length.
    + apply Forall_fmap. eapply Forall_impl; [by apply chunks_Forall |].
      intros c Hc; simpl. by apply IH.
  - rewrite bool_decide_eq_false_2 in Hdim by done. simpl in Hdim.
    apply bool_decide_eq_true_1 in Hdim as ->.
    rewrite (length_concat_uniform (np_size tgt)).
    + by rewrite length_replicate.
    + apply Forall_replicate. apply IH; [done | lia].
Qed.

Lemma broadcast_rev_same s : broadcast_rev s s = Some s.
Proof.
  induction s as [|n s IH]; simpl; [done |].
  by rewrite IH, decide_True.
Qed.

Lemma broadcast_shapes_same s : broadcast_shapes s s = Some s.
Proof.
  unfold broadcast_shapes. rewrite broadcast_rev_same. simpl.
  by rewrite reverse_involutive.
Qed.

Lemma pad_shape_same s : pad_shape s s = s.
Proof. unfold pad_shape. by rewrite Nat.sub_diag. Qed.

Lemma broadcast_to_same a : wf_array a -> broadcast_to a (shape a) = Some a.
Proof.
  intros Ha. unfold broadcast_to.
  rewrite decide_True by done.
  rewrite pad_shape_same, stretchable_same, stretch_same by done.
  by destruct a.
Qed.

Lemma broadcast_to_shape a s r : broadcast_to a s = Some r -> shape r = s.
Proof.
  unfold broadcast_to. intros Hr.
  repeat case_match; by simplify_eq.
Qed.

Lemma broadcast_to_wf a s r : wf_array a -> broadcast_to a s = Some r -> wf_array r.
Proof.
  unfold broadcast_to, wf_array. intros Ha Hr.
  repeat case_match; simplify_eq; simpl.
  apply stretch_length; [done |].
  unfold pad_shape. by rewrite np_size_ones.
Qed.

(** equal shapes: the ufunc is applied element by element *)
Lemma elementwise_same_shape f a b :
  wf_array a -> wf_array b -> shape a = shape b ->
  elementwise f a b = Ok (mk_array (shape a) (zip_with f (data a) (data b))).
Proof.
  intros Ha Hb Hs. unfold elementwise.
  rewrite <- Hs, broadcast_shapes_same.
  rewrite (broadcast_to_same a Ha).
  rewrite Hs, (broadcast_to_same b Hb). done.
Qed.

Lemma stretchable_ones s : stretchable (replicate (length s) 1) s = true.
Proof.
  induction s as [|n s IH]; simpl; [done |].
  rewrite IH. by destruct (bool_decide (1 = n)).
Qed.

Lemma stretch_ones s x :
  stretch (replicate (length s) 1) s [x] = replicate (np_size s) x.
Proof.
  induction s as [|n s IH]; simpl; [done |].
  assert (Hone : np_size (replicate (length s) 1) = 1).
  { rewrite <- (app_nil_r (replicate _ _)). by rewrite np_size_ones. }
  destruct (decide (1 = n)) as [<-|Hn].
  - rewrite Hone. simpl. rewrite IH, app_nil_r. by rewrite Nat.add_0_r.
  - rewrite IH. clear. induction n as [|n IHn]; simpl; [done |].
    by rewrite IHn, replicate_add.
Qed.

(** a numpy scalar can be broadcast to every shape *)
Lemma broadcast_to_scalar x s :
  broadcast_to (mk_array [] [x]) s = Some (mk_array s (replicate (np_size s) x)).
Proof.
  unfold broadcast_to, pad_shape; simpl.
  rewrite Nat.sub_0_r, app_nil_r, stretchable_ones, stretch_ones. done.
Qed.

Lemma np_size_strip_ones n s : np_size (strip_ones n s) = np_size s.
Proof.
  revert s; induction n as [|n IH]; intros s; [by destruct s |].
  destruct s as [|[|[|d]] s]; simpl; try done.
  rewrite IH. lia.
Qed.

Lemma np_full_shape s g r : np_full s g = Ok r -> shape r = s.
Proof.
  unfold np_full. destruct (broadcast_to _ s) as [r'|] eqn:Hb; [| done].
  intros [= <-]. by eapply broadcast_to_shape.
Qed.

Lemma np_full_wf s g r : wf_array g -> np_full s g = Ok r -> wf_array r.
Proof.
  unfold np_full. destruct (broadcast_to _ s) as [r'|] eqn:Hb; [| done].
  intros Hg [= <-]. eapply broadcast_to_wf; [| exact Hb].
  unfold wf_array; simpl. by rewrite np_size_strip_ones.
Qed.

(** a numpy scalar fills every shape *)
Lemma np_full_scalar s x :
  np_full s (mk_array [] [x]) = Ok (mk_array s (replicate (np_size s) x)).
Proof. unfold np_full; simpl. by rewrite broadcast_to_scalar. Qed.

Lemma length_flat_map_uniform {A B} (k : nat) (f : A -> list B) (l : list A) :
  (forall x, length (f x) = k) -> length (flat_map f l) = length l * k.
Proof.
  intros Hf. induction l as [|x l IH]; simpl; [done |].
  by rewrite length_app, Hf, IH.
Qed.

End ArrayFacts.

(** * The built-in operations *)

(** C2.  For arrays [A] and [B] of equal shape the forward value of [Add]
    is their elementwise sum, and for every upstream gradient (and whatever
    the cache) the backward computation returns the upstream gradient
    itself, unchanged, once for each of the two inputs. *)
Theorem Add_sum_and_gradient `{NumericBackend}
    (A B upstream : ndarray) (c : pyval ndarray) :
  wf_array A -> wf_array B -> shape A = shape B ->
  Add._forward [A; B] ∅ =
    Ok {| created := [mk_array (shape A) (zip_with nadd (data A) (data B))];
          output := New 0; cache := PTuple [] |}
  /\ Add._backward upstream c ∅ = Ok (PTuple [PArr upstream; PArr upstream]).
Proof.
  intros HA HB Hs. split; [| done].
  unfold Add._forward.
  rewrite decide_True by done. rewrite decide_True by done.
  unfold np_add. by rewrite elementwise_same_shape.
Qed.

Lemma Add_sum_and_gradient_witness :
  Add._forward [Exact.vec [1; 2]%Z; Exact.vec [3; 4]%Z] ∅ =
    Ok {| created := [Exact.vec [4; 6]%Z]; output := New 0; cache := PTuple [] |}
  /\ Add._backward (Exact.vec [1; 1]%Z) (PTuple []) ∅ =
       Ok (PTuple [PArr (Exact.vec [1; 1]%Z); PArr (Exact.vec [1; 1]%Z)]).
Proof.
  apply (Add_sum_and_gradient (Exact.vec [1; 2]%Z) (Exact.vec [3; 4]%Z)
           (Exact.vec [1; 1]%Z) (PTuple [])); reflexivity.
Defined.

(** C3.  On a backend where [x ** 2] is [x * x], the forward value of
    [Power] with the default exponent is the elementwise product of [A]
    with itself, and the cache is the input.  For every exponent [e] and
    every upstream gradient the backward computation returns the single
    gradient [(e * A ** (e - 1)) * upstream], [A] being the cached input;
    without the keyword [e] is 2.  For an upstream gradient of the shape of
    [A] this is the elementwise formula. *)
Theorem Power_square_and_gradient `{NumericBackend}
    (Hsquare : forall x, npow x (pyint 2) = nmul x x)
    (A upstream : ndarray) (e : num) :
  Power._forward [A] ∅ =
    Ok {| created := [np_map (fun x => nmul x x) A];
          output := New 0; cache := PArr (Arg 0) |}
  /\ (wf_array A -> np_mul A A = Ok (np_map (fun x => nmul x x) A))
  /\ Power._backward upstream (PArr A) {[ "scalar_exponent" := e ]} =
       rmap (fun g => PTuple [PArr g])
            (np_mul (np_scalar_mul e (np_pow_scalar A (nsub e (pyint 1)))) upstream)
  /\ Power._backward upstream (PArr A) ∅ =
       Power._backward upstream (PArr A) {[ "scalar_exponent" := pyint 2 ]}
  /\ (wf_array A -> wf_array upstream -> shape upstream = shape A ->
      Power._backward upstream (PArr A) {[ "scalar_exponent" := e ]} =
        Ok (PTuple [PArr (mk_array (shape A)
              (zip_with nmul ((fun x => nmul e (npow x (nsub e (pyint 1)))) <$> data A)
                             (data upstream)))])).
Proof.
  assert (Hkw : forall e' : num,
            Power.scalar_exponent {[ "scalar_exponent" := e' ]} = Ok e').
  { intros e'. unfold Power.scalar_exponent.
    rewrite decide_True by (by rewrite dom_singleton_L).
    by rewrite lookup_singleton_eq. }
  assert (Hdef : Power.scalar_exponent ∅ = Ok (pyint 2)).
  { unfold Power.scalar_exponent.
    rewrite decide_True by (rewrite dom_empty_L; set_solver).
    by rewrite lookup_empty. }
  split_and!.
  - unfold Power._forward. rewrite Hdef. simpl. do 3 f_equal.
    unfold np_pow_scalar, np_map. f_equal.
    apply list_fmap_ext. intros i x _. apply Hsquare.
  - intros HA. unfold np_mul. rewrite elementwise_same_shape by done.
    unfold np_map. do 2 f_equal.
    generalize (data A). intros l. induction l as [|x l IH]; simpl; [done | by rewrite IH].
  - unfold Power._backward. by rewrite Hkw.
  - unfold Power._backward. by rewrite Hkw, Hdef.
  - intros HA Hu Hs. unfold Power._backward. rewrite Hkw. simpl.
    unfold np_mul. rewrite elementwise_same_shape.
    + unfold np_scalar_mul, np_pow_scalar, np_map. simpl.
      by rewrite <- list_fmap_compose.
    + unfold wf_array, np_scalar_mul, np_pow_scalar, np_map. simpl.
      by rewrite !length_fmap.
    + done.
    + by simpl.
Qed.

Lemma Power_square_and_gradient_witness :
  Power._forward [Exact.vec [1; 2; 3]%Z] ∅ =
    Ok {| created := [Exact.vec [1; 4; 9]%Z]; output := New 0; cache := PArr (Arg 0) |}
  /\ Power._backward (Exact.vec [1; 1; 1]%Z) (PArr (Exact.vec [1; 2; 3]%Z))
       {[ "scalar_exponent" := 3%Q ]} =
     Ok (PTuple [PArr (Exact.vec [3; 12; 27]%Z)]).
Proof.
  assert (Hsq : forall x : @num Exact.backend, npow x (pyint 2) = nmul x x) by reflexivity.
  pose proof (Power_square_and_gradient Hsq
                (Exact.vec [1; 2; 3]%Z) (Exact.vec [1; 1; 1]%Z) 3%Q)
    as (Hf & _ & _ & _ & Hb).
  split.
  - exact Hf.
  - exact (Hb eq_refl eq_refl eq_refl).
Defined.

(** the product of an [(m,k)] and a [(k,n)] matrix is an [(m,n)] matrix *)
Lemma np_matmul_matrix `{NumericBackend} (a b : ndarray) (m k n : nat) :
  shape a = [m; k] -> shape b = [k; n] ->
  exists o, np_matmul a b = Ok o /\ shape o = [m; n] /\ wf_array o.
Proof.
  intros Ha Hb. unfold np_matmul. rewrite Ha, Hb, decide_True by done.
  eexists; split_and!; [done .. |].
  unfold wf_array; simpl.
  rewrite (length_flat_map_uniform n), length_seq; [lia |].
  intros i. by rewrite length_fmap, length_seq.
Qed.

(** the transpose of a matrix, entry by entry: row [c] of [a.T] is column
    [c] of [a] *)
Lemma np_T_matrix `{NumericBackend} (a : ndarray) (m k : nat) :
  shape a = [m; k] ->
  np_T a = mk_array [k; m] (flat_map (fun c => col m k (data a) c) (seq 0 k)).
Proof.
  intros Ha. unfold np_T. rewrite Ha. simpl. f_equal.
  generalize (seq 0 k) as cs. intros cs.
  induction cs as [|c cs IH]; simpl; [done |].
  rewrite omap_app, IH. f_equal.
  unfold col. generalize (seq 0 m) as rs. intros rs.
  induction rs as [|r rs IHr]; simpl; [done |].
  unfold offset at 1. simpl.
  destruct (data a !! (r * k + c)); [f_equal |]; exact IHr.
Qed.

Lemma np_T_matrix_shape `{NumericBackend} (a : ndarray) (m k : nat) :
  shape a = [m; k] -> shape (np_T a) = [k; m].
Proof. intros Ha. unfold np_T; simpl. by rewrite Ha. Qed.

(** C4.  For [A] of shape [(m,k)] and [B] of shape [(k,n)] the forward
    value of [MatMul] is the matrix product, of shape [(m,n)], and the cache
    is the two inputs; for an upstream gradient of shape [(m,n)] the
    backward computation returns exactly the pair of [upstream . B^T], of
    shape [(m,k)], and [A^T . upstream], of shape [(k,n)]. *)
Theorem MatMul_shapes_and_gradient `{NumericBackend}
    (A B upstream : ndarray) (m k n : nat) :
  shape A = [m; k] -> shape B = [k; n] -> shape upstream = [m; n] ->
  exists o gA gB,
    np_matmul A B = Ok o
    /\ MatMul._forward [A; B] ∅ =
         Ok {| created := [o]; output := New 0;
               cache := PTuple [PArr (Arg 0); PArr (Arg 1)] |}
    /\ shape o = [m; n] /\ wf_array o
    /\ np_matmul upstream (np_T B) = Ok gA
    /\ np_matmul (np_T A) upstream = Ok gB
    /\ MatMul._backward upstream (PTuple [PArr A; PArr B]) ∅ =
         Ok (PTuple [PArr gA; PArr gB])
    /\ shape gA = [m; k] /\ wf_array gA
    /\ shape gB = [k; n] /\ wf_array gB.
Proof.
  intros HA HB Hu.
  destruct (np_matmul_matrix A B m k n HA HB) as (o & Ho & Hso & Hwo).
  destruct (np_matmul_matrix upstream (np_T B) m n k Hu (np_T_matrix_shape B k n HB))
    as (gA & HgA & HsA & HwA).
  destruct (np_matmul_matrix (np_T A) upstream k m n (np_T_matrix_shape A m k HA) Hu)
    as (gB & HgB & HsB & HwB).
  exists o, gA, gB. split_and!; try done.
  - unfold MatMul._forward, MatMul.inner_dims.
    rewrite decide_True by done. rewrite HA, HB. simpl.
    rewrite bool_decide_eq_true_2 by done. by rewrite Ho.
  - unfold MatMul._backward. rewrite decide_True by done.
    by rewrite HgA, HgB.
Qed.

Lemma MatMul_shapes_and_gradient_witness :
  let A := Exact.mat 2 3 [1; 2; 3; 4; 5; 6]%Z in
  let B := Exact.mat 3 2 [1; 0; 0; 1; 1; 1]%Z in
  let upstream := Exact.mat 2 2 [1; 1; 1; 1]%Z in
  exists o gA gB,
    np_matmul A B = Ok o
    /\ MatMul._forward [A; B] ∅ =
         Ok {| created := [o]; output := New 0;
               cache := PTuple [PArr (Arg 0); PArr (Arg 1)] |}
    /\ shape o = [2; 2] /\ wf_array o
    /\ np_matmul upstream (np_T B) = Ok gA
    /\ np_matmul (np_T A) upstream = Ok gB
    /\ MatMul._backward upstream (PTuple [PArr A; PArr B]) ∅ =
         Ok (PTuple [PArr gA; PArr gB])
    /\ shape gA = [2; 3] /\ wf_array gA
    /\ shape gB = [3; 2] /\ wf_array gB.
Proof.
  intros A B upstream.
  apply (MatMul_shapes_and_gradient A B upstream 2 3 2); reflexivity.
Defined.

(** [A.T] and the matrix product on a concrete matrix: rows become columns,
    and an entry of the product is a row against a column *)
Example np_T_and_matmul :
  np_T (Exact.mat 2 3 [1; 2; 3; 4; 5; 6]%Z) = Exact.mat 3 2 [1; 4; 2; 5; 3; 6]%Z
  /\ np_matmul (Exact.mat 2 3 [1; 2; 3; 4; 5; 6]%Z) (Exact.mat 3 2 [1; 0; 0; 1; 1; 1]%Z)
     = Ok (Exact.mat 2 2 [4; 5; 10; 11]%Z).
Proof. split; reflexivity. Qed.

(** C5.  For a non-empty array [A] and every upstream gradient, the
    gradient [Mean] computes is the gradient [Sum] computes with every
    element multiplied by [1. / float(A.size)], and both have the shape of
    [A]; where the upstream gradient cannot be broadcast to the shape of
    [A] both computations raise the same error, and for a scalar upstream
    gradient both succeed. *)
Theorem Mean_Sum_duality `{NumericBackend} (A upstream : ndarray) :
  0 < np_size (shape A) ->
  let factor := ndiv (pyfloat 1) (pyfloat (Z.of_nat (np_size (shape A)))) in
  let cache_mean := fun X : Type => (PTuple [PShape (shape A); PNum factor] : pyval X) in
  let cache_sum := fun X : Type => (PShape (shape A) : pyval X) in
  (exists out_mean out_sum,
     Mean._forward [A] ∅ =
       Ok {| created := [out_mean]; output := New 0; cache := cache_mean aref |}
     /\ Sum._forward [A] ∅ =
       Ok {| created := [out_sum]; output := New 0; cache := cache_sum aref |})
  /\ match Sum._backward upstream (cache_sum ndarray) ∅ with
     | Ok grads =>
         exists g, grads = PTuple [PArr g] /\ shape g = shape A
           /\ Mean._backward upstream (cache_mean ndarray) ∅ =
                Ok (PTuple [PArr (np_mul_scalar g factor)])
           /\ shape (np_mul_scalar g factor) = shape A
     | Raise e => Mean._backward upstream (cache_mean ndarray) ∅ = Raise e
     end
  /\ (forall x, upstream = mk_array [] [x] ->
      Sum._backward upstream (cache_sum ndarray) ∅ =
        Ok (PTuple [PArr (mk_array (shape A) (replicate (np_size (shape A)) x))])).
Proof.
  intros Hne factor cache_mean cache_sum. split_and!.
  - do 2 eexists. unfold Mean._forward, Sum._forward.
    rewrite !decide_True by done. done.
  - unfold Sum._backward, Mean._backward, cache_sum, cache_mean.
    rewrite !decide_True by done.
    destruct (np_full (shape A) upstream) as [g|e] eqn:Hg; simpl; [| done].
    exists g. split_and!; try done; by eapply np_full_shape.
  - intros x ->. unfold Sum._backward, cache_sum.
    rewrite decide_True by done.
    by rewrite np_full_scalar.
Qed.

Lemma Mean_Sum_duality_witness :
  let A := Exact.mat 2 2 [1; 2; 3; 4]%Z in
  let upstream := Exact.scalar 1 in
  Sum._backward upstream (PShape [2; 2]) ∅ =
    Ok (PTuple [PArr (Exact.mat 2 2 [1; 1; 1; 1]%Z)])
  /\ Mean._backward upstream (PTuple [PShape [2; 2]; @PNum Exact.backend _ (1 # 4)%Q]) ∅ =
    Ok (PTuple [PArr (Exact.array [2; 2] [1 # 4; 1 # 4; 1 # 4; 1 # 4]%Q)]).
Proof.
  intros A upstream.
  assert (Hne : 0 < np_size (shape A)) by (vm_compute; lia).
  destruct (Mean_Sum_duality A upstream Hne) as (_ & Hdual & Hscalar).
  specialize (Hscalar 1%Q eq_refl).
  rewrite Hscalar in Hdual. destruct Hdual as (g & Hg & _ & Hmean & _).
  injection Hg as <-.
  split; [exact Hscalar | exact Hmean].
Defined.

(** C10.  [Sum] has no precondition: its forward computation succeeds on
    an array of every shape, and its backward computation, on the scalar
    upstream gradient of its scalar output, returns an array of exactly the
    shape of the input.  On an array without elements the forward value is
    the sum of no elements (zero, on a backend where that is what the
    reduction of nothing gives) and the gradient is the array of the input
    shape without elements; [Mean] rejects such an input. *)
Theorem Sum_total `{NumericBackend}
    (Hzero : nsum [] = f32 (pyfloat 0)) (A : ndarray) (x : num) :
  wf_array A ->
  Sum._forward [A] ∅ =
    Ok {| created := [np_sum A]; output := New 0; cache := PShape (shape A) |}
  /\ shape (np_sum A) = []
  /\ (exists g,
        Sum._backward (mk_array [] [x]) (PShape (shape A)) ∅ = Ok (PTuple [PArr g])
        /\ shape g = shape A /\ wf_array g)
  /\ (np_size (shape A) = 0 ->
        np_sum A = mk_array [] [f32 (pyfloat 0)]
        /\ Sum._backward (mk_array [] [x]) (PShape (shape A)) ∅ =
             Ok (PTuple [PArr (mk_array (shape A) [])])
        /\ Mean._forward [A] ∅ = Raise AssertionError).
Proof.
  intros HA.
  assert (Hback : Sum._backward (mk_array [] [x]) (PShape (shape A)) ∅ =
            Ok (PTuple [PArr (mk_array (shape A) (replicate (np_size (shape A)) x))])).
  { unfold Sum._backward. rewrite decide_True by done.
    by rewrite np_full_scalar. }
  split_and!.
  - unfold Sum._forward. by rewrite decide_True.
  - done.
  - eexists; split_and!; [exact Hback | done |].
    unfold wf_array; simpl. by rewrite length_replicate.
  - intros Hempty. split_and!.
    + unfold np_sum. red in HA. rewrite Hempty in HA.
      destruct (data A); [by rewrite Hzero | done].
    + by rewrite Hback, Hempty.
    + unfold Mean._forward. rewrite decide_True by done.
      rewrite decide_False by lia. done.
Qed.

Lemma Sum_total_witness :
  let A := Exact.array [2; 0] [] in
  Sum._forward [A] ∅ =
    Ok {| created := [Exact.scalar 0]; output := New 0; cache := PShape [2; 0] |}
  /\ Sum._backward (Exact.scalar 1) (PShape [2; 0]) ∅ =
       Ok (PTuple [PArr (Exact.array [2; 0] [])])
  /\ Mean._forward [A] ∅ = Raise AssertionError.
Proof.
  intros A.
  assert (Hzero : @nsum Exact.backend [] = f32 (pyfloat 0)) by reflexivity.
  assert (HA : wf_array A) by reflexivity.
  destruct (Sum_total Hzero A 1%Q HA) as (Hf & _ & _ & Hempty).
  destruct (Hempty eq_refl) as (_ & Hb & Hm).
  split_and!; [exact Hf | exact Hb | exact Hm].
Defined.

(** * The invocation protocol *)

(** induction on values, through the lists of tuples and lists *)
Lemma pyval_ind_nested `{NumericBackend} {A} (P : pyval A -> Prop) :
  P PNone -> (forall x, P (PNum x)) -> (forall a, P (PArr a)) ->
  (forall s, P (PShape s)) ->
  (forall l, Forall P l -> P (PTuple l)) ->
  (forall l, Forall P l -> P (PList l)) ->
  forall v, P v.
Proof.
  intros HNone HNum HArr HShape HTuple HList.
  fix IH 1.
  intros [| x | a | s | l | l];
    [exact HNone | apply HNum | apply HArr | apply HShape | |].
  - apply HTuple. induction l as [|v l IHl]; constructor; [apply IH | exact IHl].
  - apply HList. induction l as [|v l IHl]; constructor; [apply IH | exact IHl].
Qed.

(** what holds of every translated array holds of the arrays of the
    translated value *)
Lemma pyval_mapM_arrays `{NumericBackend} {A B} (f : A -> option B) (P : B -> Prop) :
  (forall a b, f a = Some b -> P b) ->
  forall v v', pyval_mapM f v = Some v' -> Forall P (pyval_arrays v').
Proof.
  intros Hf.
  assert (Hlist : forall l,
            Forall (fun v => forall v', pyval_mapM f v = Some v' -> Forall P (pyval_arrays v')) l ->
            forall l', mapM (pyval_mapM f) l = Some l' ->
            Forall P (flat_map pyval_arrays l')).
  { intros l Hl l' Hm. apply mapM_Some_1 in Hm.
    induction Hm as [|v v' l l' Hv _ IHm]; simpl; [constructor |].
    apply Forall_cons in Hl as [Hv' Hl].
    apply Forall_app. split; [by apply Hv' | by apply IHm]. }
  intros v. induction v as [| x | a | s | l IHl | l IHl] using pyval_ind_nested;
    intros v' Hv; simpl in Hv.
  - by simplify_eq.
  - by simplify_eq.
  - destruct (f a) as [b|] eqn:Hb; simplify_eq/=. repeat constructor. by eapply Hf.
  - by simplify_eq.
  - destruct (mapM (pyval_mapM f) l) as [l'|] eqn:Hm; simplify_eq/=. by eapply Hlist.
  - destruct (mapM (pyval_mapM f) l) as [l'|] eqn:Hm; simplify_eq/=. by eapply Hlist.
Qed.

Section WorldFacts.
Context `{NumericBackend} `{!GraphRegistry}.

Lemma extend_extend w l1 l2 : extend (extend w l1) l2 = extend w (l1 ++ l2).
Proof. unfold extend; simpl. by rewrite app_assoc. Qed.

Lemma wf_world_extend w l : wf_world w -> wf_world (extend w l).
Proof.
  unfold wf_world; simpl. intros Hw.
  eapply Forall_impl; [exact Hw |]. intros T HT; simpl in *.
  rewrite length_app. lia.
Qed.

Lemma tensor_value_extend w l t a :
  wf_world w -> tensor_value w t = Some a -> tensor_value (extend w l) t = Some a.
Proof.
  unfold tensor_value; simpl. intros Hw.
  destruct (tensors w !! t) as [T|] eqn:HT; [| done].
  intros Ha. by apply lookup_app_l_Some.
Qed.

Lemma copy_locs_ge base n : Forall (fun l => base <= l) (copy_locs base n).
Proof.
  revert base; induction n as [|n IH]; intros base; simpl; constructor; [lia |].
  eapply Forall_impl; [apply IH |]. intros l Hl; simpl in *. lia.
Qed.

Lemma copy_locs_lookup (pre : list ndarray) vals :
  Forall2 (fun l v => (pre ++ copies vals) !! l = Some v)
          (copy_locs (length pre) (length vals)) (float32_copy <$> vals).
Proof.
  revert pre; induction vals as [|a vals IH]; intros pre; simpl; constructor.
  - rewrite lookup_app_r by lia.
    by replace (S (length pre) - length pre) with 1 by lia.
  - specialize (IH (pre ++ [np_copy a; float32_copy a])).
    rewrite length_app in IH; simpl in IH.
    replace (length pre + 2) with (S (S (length pre))) in IH by lia.
    by rewrite <- app_assoc in IH.
Qed.

Lemma get_arrays_lookup locs vals w :
  Forall2 (fun l v => arrays w !! l = Some v) locs vals ->
  get_arrays locs w = (Ok vals, w).
Proof.
  induction 1 as [|l v locs vals Hl _ IH]; simpl; [done |].
  unfold bind, get_array. by rewrite Hl, IH.
Qed.

Lemma new_arrays_eval l w :
  new_arrays l w = (Ok (seq (length (arrays w)) (length l)), extend w l).
Proof.
  revert w; induction l as [|a l IH]; intros w; simpl.
  - unfold ret, extend. rewrite app_nil_r. by destruct w.
  - unfold bind, new_array. rewrite IH; simpl.
    unfold ret, extend; simpl. rewrite length_app, <- app_assoc; simpl.
    by replace (length (arrays w) + 1) with (S (length (arrays w))) by lia.
Qed.

(** the loop of [forward] on Tensor arguments that hold [vals], followed
    by other arguments *)
Lemma forward_loop_tensors ts vals rest acc w :
  wf_world w ->
  Forall2 (fun t a => tensor_value w t = Some a) ts vals ->
  TensorOp.forward_loop ((ATensor <$> ts) ++ rest) acc w =
  TensorOp.forward_loop rest (acc ++ copy_locs (length (arrays w)) (length vals))
    (extend w (copies vals)).
Proof.
  intros Hw Hts. revert vals acc w Hw Hts.
  induction ts as [|t ts IH]; intros vals acc w Hw Hts.
  - apply Forall2_nil_inv_l in Hts as ->. simpl.
    unfold extend; simpl. rewrite !app_nil_r. by destruct w.
  - apply Forall2_cons_inv_l in Hts as (a & vals' & Ha & Hts & ->).
    simpl. unfold bind at 1. unfold get_tensor.
    pose proof Ha as Ha'. unfold tensor_value in Ha'.
    destruct (tensors w !! t) as [T|] eqn:HT; [| done].
    unfold bind at 1. unfold copy, bind at 1, get_array. rewrite Ha'.
    unfold new_array at 1. unfold bind at 1.
    unfold astype_float32, bind at 1, get_array; simpl.
    rewrite lookup_app_r by lia. rewrite Nat.sub_diag; simpl.
    unfold new_array; simpl.
    change {| op_count := op_count w; arrays := (arrays w ++ [np_copy a]) ++ [np_astype_float32 (np_copy a)];
              tensors := tensors w; graph := graph w |}
      with (extend (extend w [np_copy a]) [float32_copy a]).
    rewrite extend_extend.
    rewrite IH with (vals := vals').
    + rewrite extend_extend. simpl. rewrite <- app_assoc. simpl.
      rewrite !length_app; simpl.
      by replace (length (arrays w) + 1) with (S (length (arrays w))) by lia;
         replace (length (arrays w) + 2) with (S (S (length (arrays w)))) by lia.
    + by apply wf_world_extend.
    + eapply Forall2_impl; [exact Hts |]. intros t' a' Ht'; simpl in *.
      by apply tensor_value_extend.
Qed.

Lemma forward_loop_stops x rest acc w :
  is_Tensor x = false ->
  TensorOp.forward_loop (x :: rest) acc w =
    (Raise (TypeError ("Illegal input type: " ++ type_repr x)), w).
Proof. by destruct x. Qed.

Lemma forward_loop_dangling t rest acc w :
  tensors w !! t = None ->
  TensorOp.forward_loop (ATensor t :: rest) acc w =
    (Raise (SystemError "no such tensor"), w).
Proof. intros Ht. simpl. unfold bind, get_tensor. by rewrite Ht. Qed.

(** in a well-formed world the arguments are Tensors of the world up to
    the first one that is none *)
Lemma args_cases w args :
  wf_world w ->
  (exists ts vals,
     args = ATensor <$> ts /\ Forall2 (fun t a => tensor_value w t = Some a) ts vals)
  \/ (exists ts vals x rest,
        args = (ATensor <$> ts) ++ x :: rest
        /\ Forall2 (fun t a => tensor_value w t = Some a) ts vals
        /\ (is_Tensor x = false \/ exists t, x = ATensor t /\ tensors w !! t = None)).
Proof.
  intros Hw. induction args as [|x args IH].
  - left. by exists [], [].
  - destruct x as [t| | |].
    2-4: right; exists [], []; do 2 eexists; split_and!; [done | constructor | by left].
    destruct (tensors w !! t) as [T|] eqn:HT.
    + assert (exists a, tensor_value w t = Some a) as [a Ha].
      { unfold tensor_value. rewrite HT. apply lookup_lt_is_Some_2.
        eapply Forall_lookup_1 in Hw; [| exact HT]. done. }
      destruct IH as [(ts & vals & -> & Hts) | (ts & vals & y & rest & -> & Hts & Hy)].
      * left. exists (t :: ts), (a :: vals). split; [done | by constructor].
      * right. exists (t :: ts), (a :: vals), y, rest.
        split_and!; [done | by constructor | done].
    + right. exists [], []. do 2 eexists.
      split_and!; [done | constructor | right; by exists t].
Qed.

Lemma init_eval cls w :
  TensorOp.__init__ (TensorOp.object_new cls) w = (Ok (initialised cls w), bump w).
Proof. reflexivity. Qed.

(** [forward] on Tensor arguments that hold [vals] *)
Lemma forward_eval self ts vals kwargs w :
  wf_world w ->
  Forall2 (fun t a => tensor_value w t = Some a) ts vals ->
  let w1 := extend w (copies vals) in
  let locs := copy_locs (length (arrays w)) (length vals) in
  TensorOp.forward self (ATensor <$> ts) kwargs w =
    match _forward (__class__ self) (float32_copy <$> vals) kwargs with
    | Raise e => (Raise e, w1)
    | Ok r =>
        let news := seq (length (arrays w1)) (length (created r)) in
        match resolve locs news (output r),
              pyval_mapM (resolve locs news) (cache r) with
        | Some d, Some c =>
            (Ok (with_attributes self c kwargs, ATensor (length (tensors w))),
             with_tensor (extend w1 (created r))
               {| Tensor.data := d; Tensor.grad := None;
                  Tensor.name := __name__ (__class__ self) |})
        | _, _ =>
            (Raise (SystemError "the computation names no array"),
             extend w1 (created r))
        end
    end.
Proof.
  intros Hw Hts w1 locs. unfold TensorOp.forward.
  unfold bind at 1.
  rewrite <- (app_nil_r (ATensor <$> ts)).
  rewrite (forward_loop_tensors ts vals [] [] w Hw Hts). simpl.
  unfold ret at 1. fold w1 locs.
  unfold bind at 1.
  rewrite (get_arrays_lookup locs (float32_copy <$> vals) w1)
    by apply copy_locs_lookup.
  unfold bind at 1, lift.
  destruct (_forward (__class__ self) (float32_copy <$> vals) kwargs) as [r|e];
    [| done].
  unfold bind at 1. rewrite new_arrays_eval.
  destruct (resolve _ _ (output r)) as [d|]; [| done].
  destruct (pyval_mapM _ (cache r)) as [c|]; done.
Qed.

(** [__new__], in terms of [forward] *)
Lemma new_eval cls args kwargs w :
  TensorOp.__new__ cls args kwargs w =
    match TensorOp.forward (initialised cls w) args kwargs (bump w) with
    | (Ok (self', ATensor t), w2) => (Ok t, registered w2 self' (tensors_of args) t)
    | (Ok (self', other), w2) =>
        (Raise (TypeError ("Only Tensor objects can be added to tensor registry, cannot add: "
                           ++ type_repr other)), w2)
    | (Raise e, w2) => (Raise e, w2)
    end.
Proof.
  unfold TensorOp.__new__. unfold bind at 1. rewrite init_eval.
  unfold bind at 1.
  destruct (TensorOp.forward _ _ _ _) as [[[self' [t| | |]]|e] w2]; done.
Qed.

Lemma tensors_of_tensors ts : tensors_of (ATensor <$> ts) = ts.
Proof. induction ts as [|t ts IH]; [done |]. unfold tensors_of in *. simpl. by f_equal. Qed.

(** the array objects a forward computation names are new, and hold the
    values it names *)
Lemma resolve_value w vals (r : computed) x d :
  resolve (copy_locs (length (arrays w)) (length vals))
          (seq (length (arrays w ++ copies vals)) (length (created r))) x = Some d ->
  length (arrays w) <= d
  /\ (arrays w ++ copies vals ++ created r) !! d
     = value_of (float32_copy <$> vals) r x
  /\ is_Some (value_of (float32_copy <$> vals) r x).
Proof.
  destruct x as [i|j]; simpl; intros Hd.
  - pose proof (copy_locs_lookup (arrays w) vals) as Hl.
    pose proof (copy_locs_ge (length (arrays w)) (length vals)) as Hge.
    eapply Forall_lookup_1 in Hge; [| exact Hd].
    eapply Forall2_lookup_l in Hl as (v & Hv & Hdv); [| exact Hd].
    split_and!; [done | | by rewrite Hv].
    rewrite Hv, app_assoc. by apply lookup_app_l_Some.
  - apply lookup_seq in Hd as [-> Hj].
    split_and!; [rewrite length_app; lia | | by apply lookup_lt_is_Some_2].
    rewrite app_assoc, lookup_app_r by lia.
    f_equal. lia.
Qed.

End WorldFacts.

Section Protocol.
Context `{NumericBackend} `{!GraphRegistry}.

(** the two ways [forward] ends in a well-formed world: with an
    exception, only array objects having been added, or with the new
    Tensor, on Tensor arguments all *)
Lemma forward_cases self args kwargs w r w' :
  wf_world w ->
  TensorOp.forward self args kwargs w = (r, w') ->
  (exists e ext, r = Raise e /\ w' = extend w ext)
  \/ (exists ts vals res d c,
        args = ATensor <$> ts
        /\ Forall2 (fun t a => tensor_value w t = Some a) ts vals
        /\ _forward (__class__ self) (float32_copy <$> vals) kwargs = Ok res
        /\ resolve (copy_locs (length (arrays w)) (length vals))
             (seq (length (arrays w ++ copies vals)) (length (created res)))
             (output res) = Some d
        /\ pyval_mapM
             (resolve (copy_locs (length (arrays w)) (length vals))
                (seq (length (arrays w ++ copies vals)) (length (created res))))
             (cache res) = Some c
        /\ r = Ok (with_attributes self c kwargs, ATensor (length (tensors w)))
        /\ w' = with_tensor (extend (extend w (copies vals)) (created res))
                  {| Tensor.data := d; Tensor.grad := None;
                     Tensor.name := __name__ (__class__ self) |}).
Proof.
  intros Hw Hf.
  destruct (args_cases w args Hw)
    as [(ts & vals & -> & Hts) | (ts & vals & x & rest & -> & Hts & Hx)].
  - rewrite (forward_eval self ts vals kwargs w Hw Hts) in Hf. simpl in Hf.
    destruct (_forward (__class__ self) (float32_copy <$> vals) kwargs) as [res|e] eqn:Hres.
    + destruct (resolve _ _ (output res)) as [d|] eqn:Hd.
      * destruct (pyval_mapM _ (cache res)) as [c|] eqn:Hc.
        -- right. exists ts, vals, res, d, c. by simplify_eq.
        -- left. simplify_eq. rewrite extend_extend. by do 2 eexists.
      * left. simplify_eq. rewrite extend_extend. by do 2 eexists.
    + left. simplify_eq. by do 2 eexists.
  - left. unfold TensorOp.forward in Hf. unfold bind at 1 in Hf.
    rewrite (forward_loop_tensors ts vals (x :: rest) [] w Hw Hts) in Hf.
    destruct Hx as [Hx | (t & -> & Ht)].
    + rewrite forward_loop_stops in Hf by done. simplify_eq. by do 2 eexists.
    + rewrite forward_loop_dangling in Hf by done. simplify_eq. by do 2 eexists.
Qed.

Lemma wf_world_bump w : wf_world w -> wf_world (bump w).
Proof. done. Qed.

(** C1.  When the forward computation of an invocation completes, the
    invocation returns a Tensor that did not exist before (not the
    operation instance), named after the class, without gradient, whose
    data is the array the [_forward] of the class returned as its output
    on the float32 copies of the inputs; all positional arguments were
    Tensors, and the graph after the invocation is the graph before it with
    [add_op_to_graph] applied once, to the instance, to those Tensors in
    the order supplied and to the new Tensor. *)
Theorem invocation_returns_registered_tensor
    (cls : OpClass) (args : list pyarg) (kwargs : gmap string num)
    (w w2 : world) (self' : instance) (v : pyarg) :
  wf_world w ->
  TensorOp.forward (initialised cls w) args kwargs (bump w) = (Ok (self', v), w2) ->
  TensorOp.__init__ (TensorOp.object_new cls) w = (Ok (initialised cls w), bump w)
  /\ exists out T values r,
      v = ATensor out
      /\ TensorOp.__new__ cls args kwargs w =
           (Ok out, registered w2 self' (tensors_of args) out)
      /\ graph (registered w2 self' (tensors_of args) out) =
           add_op_to_graph self' (tensors_of args) out (graph w)
      /\ ATensor <$> tensors_of args = args
      /\ out = length (tensors w)
      /\ tensors w2 = tensors w ++ [T]
      /\ Tensor.name T = __name__ cls /\ Tensor.grad T = None
      /\ Forall2 (fun x a => exists t a0,
                    x = ATensor t /\ tensor_value w t = Some a0 /\ a = float32_copy a0)
           args values
      /\ _forward cls values kwargs = Ok r
      /\ is_Some (value_of values r (output r))
      /\ arrays w2 !! Tensor.data T = value_of values r (output r).
Proof.
  intros Hw Hf. split; [apply init_eval |].
  destruct (forward_cases _ _ _ _ _ _ (wf_world_bump w Hw) Hf)
    as [(e & ext & ? & _) | (ts & vals & res & d & c & -> & Hts & Hres & Hd & Hc & Hr & ->)];
    [done |].
  injection Hr as -> ->.
  destruct (resolve_value (bump w) vals res (output res) d Hd) as (_ & Hval & Hsome).
  eexists _, _, (float32_copy <$> vals), res.
  split_and!; try done.
  - by rewrite new_eval, Hf.
  - by rewrite tensors_of_tensors.
  - apply Forall2_fmap. clear -Hts.
    induction Hts as [|t a ts vals Ht _ IH]; constructor; [| done].
    by exists t, a.
  - simpl. rewrite <- Hval. simpl. by rewrite <- app_assoc.
Qed.

End Protocol.

Lemma invocation_returns_registered_tensor_witness :
  let w := Exact.leaves [Exact.vec [1; 2]%Z; Exact.vec [3; 4]%Z] in
  exists w',
    TensorOp.__new__ Add.cls [ATensor 0; ATensor 1] ∅ w = (Ok 2, w')
    /\ tensors w' !! 2 = Some {| Tensor.data := 6; Tensor.grad := None; Tensor.name := "Add" |}
    /\ arrays w' !! 6 = Some (Exact.vec [4; 6]%Z)
    /\ (fun e => (e.1, e.2.2)) <$> graph w' = [(2, [0; 1])].
Proof.
  intros w.
  assert (Hw : wf_world w) by (repeat constructor).
  pose (self' := with_attributes (initialised Add.cls w) (PTuple []) ∅).
  pose (w2 := with_tensor
                (extend (extend (bump w) (copies [Exact.vec [1; 2]%Z; Exact.vec [3; 4]%Z]))
                        [Exact.vec [4; 6]%Z])
                {| Tensor.data := 6; Tensor.grad := None; Tensor.name := "Add" |}).
  assert (Hf : TensorOp.forward (initialised Add.cls w) [ATensor 0; ATensor 1] ∅ (bump w)
               = (Ok (self', ATensor 2), w2)) by reflexivity.
  destruct (invocation_returns_registered_tensor Add.cls _ ∅ w w2 self' _ Hw Hf)
    as (_ & out & T & values & r & Hout & Hnew & _).
  injection Hout as <-.
  eexists. split; [exact Hnew |]. split_and!; reflexivity.
Defined.

Lemma Forall2_and_Forall_l {A B} (P : A -> B -> Prop) (Q : A -> Prop) l k :
  Forall2 P l k -> Forall Q l -> Forall2 (fun x y => P x y /\ Q x) l k.
Proof.
  induction 1 as [|x y l k Hxy _ IH]; intros HQ; [constructor |].
  apply Forall_cons in HQ as [Hx HQ]. constructor; auto.
Qed.

Section Isolation.
Context `{NumericBackend} `{!GraphRegistry}.

(** C9.  In a well-formed world, however [forward] ends, every array
    object and every Tensor of the world is as it was.  When it returns,
    [_forward] was applied to the values of new array objects that hold the
    float32 copies of the data of the inputs, and neither the data of the
    output Tensor nor an array in the cache of the instance is an array
    object of the world before; so none is the data of a Tensor that
    existed, of an input in particular.  The world stays well-formed. *)
Theorem forward_isolates_inputs
    (self : instance) (args : list pyarg) (kwargs : gmap string num)
    (w w' : world) (r : result (instance * pyarg)) :
  wf_world w ->
  TensorOp.forward self args kwargs w = (r, w') ->
  (forall l a, arrays w !! l = Some a -> arrays w' !! l = Some a)
  /\ (forall t T, tensors w !! t = Some T -> tensors w' !! t = Some T)
  /\ wf_world w'
  /\ (forall self' v, r = Ok (self', v) ->
      exists out Tout c locs values res,
        v = ATensor out /\ tensors w' !! out = Some Tout
        /\ self_cache self' = Some c
        /\ Forall2 (fun x a => exists t a0,
                      x = ATensor t /\ tensor_value w t = Some a0 /\ a = float32_copy a0)
             args values
        /\ Forall2 (fun l a => arrays w' !! l = Some a /\ arrays w !! l = None) locs values
        /\ _forward (__class__ self) values kwargs = Ok res
        /\ arrays w !! Tensor.data Tout = None
        /\ Forall (fun l => arrays w !! l = None) (pyval_arrays c)
        /\ (forall t T, tensors w !! t = Some T ->
              Tensor.data T <> Tensor.data Tout /\ Tensor.data T ∉ pyval_arrays c)).
Proof.
  intros Hw Hf.
  destruct (forward_cases _ _ _ _ _ _ Hw Hf)
    as [(e & ext & -> & ->)
       | (ts & vals & res & d & c & -> & Hts & Hres & Hd & Hc & -> & ->)].
  { split_and!.
    - intros l a Hl; simpl. by apply lookup_app_l_Some.
    - done.
    - by apply wf_world_extend.
    - intros ?? [=]. }
  destruct (resolve_value w vals res (output res) d Hd) as (Hfresh & Hval & Hsome).
  assert (Hcache : Forall (fun l => length (arrays w) <= l) (pyval_arrays c)).
  { eapply pyval_mapM_arrays; [| exact Hc].
    intros x l Hx. by destruct (resolve_value w vals res x l Hx). }
  split_and!.
  - intros l a Hl; simpl. by do 2 apply lookup_app_l_Some.
  - intros t T Ht; simpl. by apply lookup_app_l_Some.
  - unfold wf_world; simpl. apply Forall_app. split.
    + eapply Forall_impl; [exact Hw |]. intros T HT; simpl in *.
      rewrite !length_app. lia.
    + repeat constructor; simpl.
      apply lookup_lt_is_Some_1. rewrite <- app_assoc.
      destruct Hsome as [v Hv]. exists v. rewrite <- Hv. exact Hval.
  - intros self' v [= <- <-].
    eexists (length (tensors w)), _, c,
      (copy_locs (length (arrays w)) (length vals)), (float32_copy <$> vals), res.
    split_and!; try done.
    + simpl. by rewrite lookup_app_r, Nat.sub_diag by lia.
    + apply Forall2_fmap. clear -Hts.
      induction Hts as [|t a ts vals Ht _ IH]; constructor; [| done].
      by exists t, a.
    + eapply Forall2_impl.
      * apply Forall2_and_Forall_l;
          [apply (copy_locs_lookup (arrays w) vals) | apply copy_locs_ge].
      * intros l a [Hl Hge]; simpl in *. split.
        -- by apply lookup_app_l_Some.
        -- by apply lookup_ge_None_2.
    + simpl. by apply lookup_ge_None_2.
    + eapply Forall_impl; [exact Hcache |].
      intros l Hl; simpl in *. by apply lookup_ge_None_2.
    + intros t T Ht.
      assert (HT : Tensor.data T < length (arrays w))
        by (eapply Forall_lookup_1 in Hw; [| exact Ht]; done).
      simpl. split; [lia |].
      intros Hin. eapply Forall_forall in Hcache; [| exact Hin]. lia.
Qed.

(** the arguments before the first that is no Tensor are Tensors *)
Lemma first_non_tensor_after ts x rest :
  is_Tensor x = false -> first_non_tensor ((ATensor <$> ts) ++ x :: rest) = Some x.
Proof. intros Hx. induction ts as [|t ts IH]; simpl; [by rewrite Hx | done]. Qed.

Lemma first_non_tensor_tensors ts : first_non_tensor (ATensor <$> ts) = None.
Proof. by induction ts. Qed.

(** C8.  If a positional argument of an invocation is not a Tensor (a
    plain int or float, or anything else), the invocation raises the type
    error of [forward] for the first such argument.  What the invocation
    leaves behind is the same for every class: the counter advanced and
    copies of the data of the Tensors before that argument; [_forward] has
    no part in it, no Tensor is made and nothing is registered. *)
Theorem non_tensor_argument_raises
    (args : list pyarg) (kwargs : gmap string num) (w : world) (x : pyarg) :
  wf_world w ->
  (forall t, ATensor t ∈ args -> t < length (tensors w)) ->
  first_non_tensor args = Some x ->
  is_Tensor x = false
  /\ exists ext,
      forall cls : OpClass,
        TensorOp.__new__ cls args kwargs w =
          (Raise (TypeError ("Illegal input type: " ++ type_repr x)), extend (bump w) ext).
Proof.
  intros Hw Hargs Hx.
  destruct (args_cases w args Hw)
    as [(ts & vals & -> & Hts) | (ts & vals & y & rest & -> & Hts & Hy)].
  { by rewrite first_non_tensor_tensors in Hx. }
  destruct Hy as [Hy | (t & -> & Ht)].
  - rewrite first_non_tensor_after in Hx by done. injection Hx as ->.
    split; [done |]. exists (copies vals). intros cls.
    rewrite new_eval. unfold TensorOp.forward. unfold bind at 1.
    rewrite (forward_loop_tensors ts vals (x :: rest) [] (bump w) Hw Hts).
    by rewrite forward_loop_stops.
  - exfalso. apply lookup_ge_None_1 in Ht.
    assert (Hin : ATensor t ∈ (ATensor <$> ts) ++ ATensor t :: rest)
      by (apply elem_of_app; right; left).
    apply Hargs in Hin. lia.
Qed.

(** the cast keeps the shape *)
Lemma float32_copy_shape (a : ndarray) : shape (float32_copy a) = shape a.
Proof. done. Qed.

Lemma violated_forward_raises cls vals :
  precondition_violated cls vals ->
  _forward cls (float32_copy <$> vals) ∅ = Raise AssertionError.
Proof.
  destruct 1 as [a b Hs | a b Hs | a b d1 d2 H1 H2 Hd | a Hz]; simpl.
  - unfold Add._forward. rewrite decide_True by done. by rewrite decide_False.
  - unfold Subtract._forward. rewrite decide_True by done. by rewrite decide_False.
  - unfold MatMul._forward, MatMul.inner_dims. rewrite decide_True by done.
    simpl. unfold np_copy. rewrite H1, H2. simpl.
    by rewrite bool_decide_eq_false_2.
  - unfold Mean._forward. rewrite decide_True by done.
    simpl. unfold np_copy. rewrite Hz. by rewrite decide_False by lia.
Qed.

(** C6, as the code has it.  When the forward precondition of a built-in
    operation is violated ([Add] or [Subtract] on unequal shapes, [MatMul]
    on unequal inner dimensions, [Mean] on an array without elements), the
    invocation fails with the assertion error of the forward computation:
    nothing is registered in the graph, no Tensor is made, and every array
    object and Tensor of the world is as it was; the operation counter has
    been advanced by one. *)
Theorem violated_precondition_aborts
    (cls : OpClass) (ts : list tid) (vals : list ndarray) (w : world) :
  wf_world w ->
  Forall2 (fun t a => tensor_value w t = Some a) ts vals ->
  precondition_violated cls vals ->
  exists w',
    TensorOp.__new__ cls (ATensor <$> ts) ∅ w = (Raise AssertionError, w')
    /\ graph w' = graph w
    /\ tensors w' = tensors w
    /\ (forall l a, arrays w !! l = Some a -> arrays w' !! l = Some a)
    /\ op_count w' = op_count w + 1.
Proof.
  intros Hw Hts Hv. exists (extend (bump w) (copies vals)).
  split_and!; try done.
  - rewrite new_eval, (forward_eval _ ts vals ∅ (bump w) Hw Hts). simpl.
    by rewrite violated_forward_raises.
  - intros l a Hl; simpl. by apply lookup_app_l_Some.
Qed.

(** C7, as the code has it.  [backward] raises its type error exactly when
    the gradient computation returns something that is not a tuple; a tuple
    is returned unchanged, whatever its length, and an exception of the
    gradient computation is passed on. *)
Theorem backward_checks_tuple
    (self : instance) (upstream : ndarray) (w : world)
    (c : pyval loc) (kwargs : gmap string num) (cache : pyval ndarray) :
  self_cache self = Some c -> self_kwargs self = Some kwargs ->
  read_pyval w c = Some cache ->
  (forall grads, _backward (__class__ self) upstream cache kwargs = Ok grads ->
     (is_tuple grads = true -> TensorOp.backward self upstream w = Ok grads)
     /\ (is_tuple grads = false ->
         TensorOp.backward self upstream w =
           Raise (TypeError "Must return tuple of grads wrt input tensors.")))
  /\ (forall e, _backward (__class__ self) upstream cache kwargs = Raise e ->
        TensorOp.backward self upstream w = Raise e).
Proof.
  intros Hc Hk Hr. unfold TensorOp.backward. rewrite Hc, Hk, Hr.
  split.
  - intros grads ->. simpl. split; by intros ->.
  - by intros e ->.
Qed.

End Isolation.

(** * The protocol on concrete worlds *)

Lemma forward_isolates_inputs_witness :
  let w := Exact.leaves [Exact.vec [1; 2]%Z] in
  let self := initialised Power.cls w in
  exists self' w',
    TensorOp.forward self [ATensor 0] ∅ w = (Ok (self', ATensor 1), w')
    /\ self_cache self' = Some (PArr 2)
    /\ tensors w' !! 1 = Some {| Tensor.data := 3; Tensor.grad := None; Tensor.name := "Power" |}
    /\ (forall l a, arrays w !! l = Some a -> arrays w' !! l = Some a)
    /\ (forall t T, tensors w !! t = Some T -> tensors w' !! t = Some T)
    /\ wf_world w'.
Proof.
  intros w self.
  pose (self' := with_attributes self (PArr 2) ∅).
  pose (w' := with_tensor
                (extend (extend w (copies [Exact.vec [1; 2]%Z])) [Exact.vec [1; 4]%Z])
                {| Tensor.data := 3; Tensor.grad := None; Tensor.name := "Power" |}).
  assert (Hw : wf_world w) by (repeat constructor).
  assert (Hf : TensorOp.forward self [ATensor 0] ∅ w = (Ok (self', ATensor 1), w'))
    by reflexivity.
  destruct (forward_isolates_inputs self _ ∅ w w' _ Hw Hf) as (Harr & Hten & Hw' & _).
  exists self', w'. split_and!; [exact Hf | reflexivity | reflexivity | exact Harr | exact Hten | exact Hw'].
Defined.

Lemma non_tensor_argument_raises_witness :
  let w := Exact.leaves [Exact.vec [1; 2]%Z] in
  exists ext,
    forall cls : OpClass,
      TensorOp.__new__ cls [ATensor 0; AInt 2] ∅ w =
        (Raise (TypeError "Illegal input type: <class 'int'>"), extend (bump w) ext).
Proof.
  intros w.
  assert (Hw : wf_world w) by (repeat constructor).
  assert (Hargs : forall t, @ATensor Exact.backend t ∈ [ATensor 0; AInt 2] ->
                            t < length (tensors w)).
  { intros t Ht. apply elem_of_cons in Ht as [Ht | Ht]; [injection Ht as ->; simpl; lia |].
    apply elem_of_cons in Ht as [Ht | Ht]; [discriminate |].
    by apply elem_of_nil in Ht. }
  exact (proj2 (non_tensor_argument_raises [ATensor 0; AInt 2] ∅ w (AInt 2) Hw Hargs eq_refl)).
Defined.

Lemma violated_precondition_aborts_witness :
  let w := Exact.leaves [Exact.vec [1; 2]%Z; Exact.vec [3; 4; 5]%Z] in
  exists w',
    TensorOp.__new__ Add.cls [ATensor 0; ATensor 1] ∅ w = (Raise AssertionError, w')
    /\ graph w' = graph w
    /\ tensors w' = tensors w
    /\ (forall l a, arrays w !! l = Some a -> arrays w' !! l = Some a)
    /\ op_count w' = op_count w + 1.
Proof.
  intros w.
  assert (Hw : wf_world w) by (repeat constructor).
  assert (Hts : Forall2 (fun t a => tensor_value w t = Some a) [0; 1]
                  [Exact.vec [1; 2]%Z; Exact.vec [3; 4; 5]%Z])
    by (repeat constructor).
  assert (Hv : precondition_violated Add.cls [Exact.vec [1; 2]%Z; Exact.vec [3; 4; 5]%Z])
    by (apply Add_unequal_shapes; discriminate).
  exact (violated_precondition_aborts Add.cls [0; 1] _ w Hw Hts Hv).
Defined.

(** C6 as stated fails: an invocation that violates a precondition
    changes process-wide state, the operation counter, which [__init__]
    advances before the forward computation starts. *)
Lemma violated_precondition_advances_counter :
  let w := Exact.leaves [Exact.vec [1; 2]%Z; Exact.vec [3; 4; 5]%Z] in
  exists w',
    TensorOp.__new__ Add.cls [ATensor 0; ATensor 1] ∅ w = (Raise AssertionError, w')
    /\ op_count w = 0 /\ op_count w' = 1 /\ w' <> w.
Proof.
  intros w.
  exists (extend (bump w) (copies [Exact.vec [1; 2]%Z; Exact.vec [3; 4; 5]%Z])).
  split_and!; [reflexivity .. |].
  intros Heq. apply (f_equal op_count) in Heq. discriminate.
Qed.

Lemma backward_checks_tuple_witness :
  let w := Exact.leaves [Exact.vec [1; 2]%Z] in
  let self := with_attributes (initialised Power.cls w) (PArr 2) ∅ in
  let w' := with_tensor
              (extend (extend w (copies [Exact.vec [1; 2]%Z])) [Exact.vec [1; 4]%Z])
              {| Tensor.data := 3; Tensor.grad := None; Tensor.name := "Power" |} in
  TensorOp.backward self (Exact.vec [1; 1]%Z) w' = Ok (PTuple [PArr (Exact.vec [2; 4]%Z)]).
Proof.
  intros w self w'.
  assert (Hr : read_pyval w' (PArr 2) = Some (PArr (Exact.vec [1; 2]%Z))) by reflexivity.
  destruct (backward_checks_tuple self (Exact.vec [1; 1]%Z) w' (PArr 2) ∅ _
              eq_refl eq_refl Hr) as [Hok _].
  exact (proj1 (Hok (PTuple [PArr (Exact.vec [2; 4]%Z)]) eq_refl) eq_refl).
Defined.

(** C7 as stated fails: on an operation with two inputs whose gradient
    computation returns a tuple of one gradient, [backward] raises nothing
    and returns that tuple. *)
Lemma backward_accepts_short_tuple :
  let w := Exact.leaves [Exact.vec [1; 2]%Z; Exact.vec [3; 4]%Z] in
  let g := Exact.vec [1; 1]%Z in
  exists w1 op,
    TensorOp.__new__ Lopsided.cls [ATensor 0; ATensor 1] ∅ w = (Ok 2, w1)
    /\ graph w1 = [(2, (op, [0; 1]))]
    /\ TensorOp.backward op g w1 = Ok (PTuple [PArr g])
    /\ length [0; 1] <> length [@PArr Exact.backend _ g].
Proof.
  intros w g.
  pose (op := with_attributes (initialised Lopsided.cls w) (PTuple []) ∅).
  exists (registered
            (with_tensor
               (extend (extend (bump w) (copies [Exact.vec [1; 2]%Z; Exact.vec [3; 4]%Z])) [])
               {| Tensor.data := 3; Tensor.grad := None; Tensor.name := "Lopsided" |})
            op [0; 1] 2), op.
  split_and!; [reflexivity .. |]. simpl. lia.
Qed.

(** * More on the built-in operations *)

(** X1.  For arrays of equal shape the forward value of [Subtract] is the
    elementwise difference, nothing is cached, and the backward
    computation returns the upstream gradient for the first input and its
    elementwise negation, of the same shape, for the second. *)
Theorem Subtract_difference_and_gradient `{NumericBackend}
    (A B upstream : ndarray) (c : pyval ndarray) :
  wf_array A -> wf_array B -> shape A = shape B ->
  Subtract._forward [A; B] ∅ =
    Ok {| created := [mk_array (shape A) (zip_with nsub (data A) (data B))];
          output := New 0; cache := PTuple [] |}
  /\ Subtract._backward upstream c ∅ =
       Ok (PTuple [PArr upstream;
                   PArr (mk_array (shape upstream) (nneg <$> data upstream))]).
Proof.
  intros HA HB Hs. split; [| done].
  unfold Subtract._forward.
  rewrite decide_True by done. rewrite decide_True by done.
  unfold np_sub. by rewrite elementwise_same_shape.
Qed.

Lemma Subtract_difference_and_gradient_witness :
  Subtract._forward [Exact.vec [1; 2]%Z; Exact.vec [3; 5]%Z] ∅ =
    Ok {| created := [Exact.vec [-2; -3]%Z]; output := New 0; cache := PTuple [] |}
  /\ Subtract._backward (Exact.vec [1; 1]%Z) (PTuple []) ∅ =
       Ok (PTuple [PArr (Exact.vec [1; 1]%Z); PArr (Exact.vec [-1; -1]%Z)]).
Proof.
  apply (Subtract_difference_and_gradient (Exact.vec [1; 2]%Z) (Exact.vec [3; 5]%Z)
           (Exact.vec [1; 1]%Z) (PTuple [])); reflexivity.
Defined.

(** X2.  The forward value of [Exp] is the elementwise exponential, on an
    array of every shape, and what is cached is the output array itself,
    not the input.  The backward computation returns the single gradient
    [output * upstream]: for an upstream gradient of the shape of the
    output, the elementwise product of the exponentials with it. *)
Theorem Exp_value_and_gradient `{NumericBackend} (A upstream : ndarray) :
  Exp._forward [A] ∅ =
    Ok {| created := [mk_array (shape A) (nexp <$> data A)];
          output := New 0; cache := PArr (New 0) |}
  /\ (wf_array A -> wf_array upstream -> shape upstream = shape A ->
      Exp._backward upstream (PArr (mk_array (shape A) (nexp <$> data A))) ∅ =
        Ok (PTuple [PArr (mk_array (shape A)
                      (zip_with nmul (nexp <$> data A) (data upstream)))])).
Proof.
  split.
  - unfold Exp._forward. by rewrite decide_True.
  - intros HA Hu Hs. unfold Exp._backward. rewrite decide_True by done.
    unfold np_mul. rewrite elementwise_same_shape; [done | | done | by simpl].
    unfold wf_array; simpl. by rewrite length_fmap.
Qed.

Lemma Exp_value_and_gradient_witness :
  Exp._forward [Exact.vec [0; 1; 3]%Z] ∅ =
    Ok {| created := [Exact.vec [1; 2; 8]%Z]; output := New 0; cache := PArr (New 0) |}
  /\ Exp._backward (Exact.vec [1; 2; 3]%Z) (PArr (Exact.vec [1; 2; 8]%Z)) ∅ =
       Ok (PTuple [PArr (Exact.vec [1; 4; 24]%Z)]).
Proof.
  destruct (Exp_value_and_gradient (Exact.vec [0; 1; 3]%Z) (Exact.vec [1; 2; 3]%Z))
    as [Hf Hb].
  split; [exact Hf | exact (Hb eq_refl eq_refl eq_refl)].
Defined.

(** X3.  On operands of rank at most 2, what the forward computation of
    [MatMul] does is decided by the shapes alone.  A scalar operand raises
    an index error (it has no last, or first, axis).  Otherwise unequal
    inner dimensions raise the assertion error, and equal ones make the
    matrix product succeed: its shape is the shape of the first operand
    without its last axis followed by the shape of the second without its
    first.  The assertion is thus all that [np.matmul] needs. *)
Theorem MatMul_forward_outcome `{NumericBackend} (A B : ndarray) :
  length (shape A) <= 2 -> length (shape B) <= 2 ->
  match last (shape A), head (shape B) with
  | Some d1, Some d2 =>
      if decide (d1 = d2) then
        exists o,
          MatMul._forward [A; B] ∅ =
            Ok {| created := [o]; output := New 0;
                  cache := PTuple [PArr (Arg 0); PArr (Arg 1)] |}
          /\ shape o = removelast (shape A) ++ tail (shape B)
      else MatMul._forward [A; B] ∅ = Raise AssertionError
  | _, _ =>
      MatMul._forward [A; B] ∅ = Raise (IndexError "tuple index out of range")
  end.
Proof.
  intros HrA HrB. unfold MatMul._forward, MatMul.inner_dims, np_matmul.
  rewrite decide_True by done.
  destruct (shape A) as [|m [|k [|? ?]]] eqn:HA; simpl in HrA; try lia;
    destruct (shape B) as [|k' [|n [|? ?]]] eqn:HB; simpl in HrB; try lia;
    simpl; try done.
  all: case_decide as Hd; simpl;
    [ subst; rewrite bool_decide_eq_true_2 by done; simpl;
      rewrite ?decide_True by done; simpl; by eexists
    | by rewrite bool_decide_eq_false_2 by done ].
Qed.

Lemma MatMul_forward_outcome_witness :
  exists o,
    MatMul._forward [Exact.mat 2 3 [1; 2; 3; 4; 5; 6]%Z; Exact.vec [1; 0; 1]%Z] ∅ =
      Ok {| created := [o]; output := New 0;
            cache := PTuple [PArr (Arg 0); PArr (Arg 1)] |}
    /\ shape o = [2].
Proof.
  assert (HA : length (shape (Exact.mat 2 3 [1; 2; 3; 4; 5; 6]%Z)) <= 2) by (simpl; lia).
  assert (HB : length (shape (Exact.vec [1; 0; 1]%Z)) <= 2) by (simpl; lia).
  exact (MatMul_forward_outcome (Exact.mat 2 3 [1; 2; 3; 4; 5; 6]%Z)
           (Exact.vec [1; 0; 1]%Z) HA HB).
Defined.

(** X4.  [MatMul] accepts a matrix of shape [(m,k)] and a vector of shape
    [(k,)]: the forward value has shape [(m,)].  Its backward computation
    does not support them: for an upstream gradient of that shape it
    multiplies a vector of length [m] with the vector of length [k], and
    raises the value error of [np.matmul] when [m] and [k] differ. *)
Theorem MatMul_vector_gradient_fails `{NumericBackend}
    (A B upstream : ndarray) (m k : nat) :
  shape A = [m; k] -> shape B = [k] -> shape upstream = [m] -> m <> k ->
  (exists o,
     MatMul._forward [A; B] ∅ =
       Ok {| created := [o]; output := New 0;
             cache := PTuple [PArr (Arg 0); PArr (Arg 1)] |}
     /\ shape o = [m])
  /\ MatMul._backward upstream (PTuple [PArr A; PArr B]) ∅ =
       Raise (ValueError "matmul: mismatch in its core dimension").
Proof.
  intros HA HB Hu Hmk. split.
  - unfold MatMul._forward, MatMul.inner_dims, np_matmul.
    rewrite decide_True by done. rewrite HA, HB. simpl.
    rewrite bool_decide_eq_true_2 by done. simpl.
    rewrite decide_True by done. by eexists.
  - unfold MatMul._backward. rewrite decide_True by done.
    unfold np_matmul at 1. rewrite Hu. unfold np_T at 1. rewrite HB. simpl.
    by rewrite decide_False.
Qed.

Lemma MatMul_vector_gradient_fails_witness :
  MatMul._backward (Exact.vec [1; 1]%Z)
    (PTuple [PArr (Exact.mat 2 3 [1; 2; 3; 4; 5; 6]%Z); PArr (Exact.vec [1; 0; 1]%Z)]) ∅ =
  Raise (ValueError "matmul: mismatch in its core dimension").
Proof.
  assert (Hne : 2 <> 3) by lia.
  exact (proj2 (MatMul_vector_gradient_fails (Exact.mat 2 3 [1; 2; 3; 4; 5; 6]%Z)
                  (Exact.vec [1; 0; 1]%Z) (Exact.vec [1; 1]%Z) 2 3
                  eq_refl eq_refl eq_refl Hne)).
Defined.

(** * More on the invocation protocol *)

(** translating the arrays of a value twice is translating them once *)
Lemma pyval_mapM_compose `{NumericBackend} {A B C}
    (f : A -> option B) (g : B -> option C) (h : A -> option C) :
  (forall a b, f a = Some b -> is_Some (h a) /\ g b = h a) ->
  forall v v', pyval_mapM f v = Some v' ->
    is_Some (pyval_mapM h v) /\ pyval_mapM g v' = pyval_mapM h v.
Proof.
  intros Hfgh.
  assert (Hlist : forall l,
            Forall (fun v => forall v', pyval_mapM f v = Some v' ->
                      is_Some (pyval_mapM h v) /\ pyval_mapM g v' = pyval_mapM h v) l ->
            forall l', mapM (pyval_mapM f) l = Some l' ->
            is_Some (mapM (pyval_mapM h) l)
            /\ mapM (pyval_mapM g) l' = mapM (pyval_mapM h) l).
  { intros l Hl l' Hm. apply mapM_Some_1 in Hm.
    induction Hm as [|v v' l l' Hv _ IHm]; simpl; [by split; [eexists |] |].
    apply Forall_cons in Hl as [Hv' Hl].
    destruct (Hv' v' Hv) as [[x Hx] Hgx].
    destruct (IHm Hl) as [[k Hk] Hgk].
    rewrite Hgx, Hgk, Hx, Hk. simpl. by split; [eexists |]. }
  intros v. induction v as [| x | a | s | l IHl | l IHl] using pyval_ind_nested;
    intros v' Hv; simpl in Hv.
  - simplify_eq. by split; [eexists |].
  - simplify_eq. by split; [eexists |].
  - destruct (f a) as [b|] eqn:Hb; simplify_eq/=.
    destruct (Hfgh a b Hb) as [[x Hx] Hg]. rewrite Hg, Hx. by split; [eexists |].
  - simplify_eq. by split; [eexists |].
  - destruct (mapM (pyval_mapM f) l) as [l'|] eqn:Hm; simplify_eq/=.
    destruct (Hlist l IHl l' Hm) as [Hk Hg].
    split; [apply fmap_is_Some; exact Hk | f_equal; exact Hg].
  - destruct (mapM (pyval_mapM f) l) as [l'|] eqn:Hm; simplify_eq/=.
    destruct (Hlist l IHl l' Hm) as [Hk Hg].
    split; [apply fmap_is_Some; exact Hk | f_equal; exact Hg].
Qed.

Section Invocations.
Context `{NumericBackend} `{!GraphRegistry}.

(** a completed invocation on Tensor arguments that hold [vals] *)
Lemma new_success cls ts vals kwargs w res d c :
  wf_world w ->
  Forall2 (fun t a => tensor_value w t = Some a) ts vals ->
  _forward cls (float32_copy <$> vals) kwargs = Ok res ->
  resolve (copy_locs (length (arrays w)) (length vals))
    (seq (length (arrays w ++ copies vals)) (length (created res))) (output res) = Some d ->
  pyval_mapM
    (resolve (copy_locs (length (arrays w)) (length vals))
       (seq (length (arrays w ++ copies vals)) (length (created res)))) (cache res) = Some c ->
  TensorOp.__new__ cls (ATensor <$> ts) kwargs w =
    (Ok (length (tensors w)),
     registered
       (with_tensor (extend (extend (bump w) (copies vals)) (created res))
          {| Tensor.data := d; Tensor.grad := None; Tensor.name := __name__ cls |})
       (with_attributes (initialised cls w) c kwargs) ts (length (tensors w))).
Proof.
  intros Hw Hts Hres Hd Hc.
  rewrite new_eval, (forward_eval _ ts vals kwargs (bump w) Hw Hts). simpl.
  rewrite Hres. simpl. rewrite Hd, Hc. by rewrite tensors_of_tensors.
Qed.

(** [backward] on the instance of a completed [forward], in that world or
    a later one with more array objects *)
Lemma backward_after_forward (self : instance) vals kwargs w res c w2 upstream :
  pyval_mapM
    (resolve (copy_locs (length (arrays w)) (length vals))
       (seq (length (arrays w ++ copies vals)) (length (created res)))) (cache res) = Some c ->
  (arrays w ++ copies vals ++ created res) `prefix_of` arrays w2 ->
  exists cache_v,
    pyval_mapM (value_of (float32_copy <$> vals) res) (cache res) = Some cache_v
    /\ TensorOp.backward (with_attributes self c kwargs) upstream w2 =
         checked (_backward (__class__ self) upstream cache_v kwargs).
Proof.
  intros Hc Hpre.
  destruct (pyval_mapM_compose _ (fun l => arrays w2 !! l)
              (value_of (float32_copy <$> vals) res)
              (fun x l Hx =>
                 let '(conj _ (conj Hval Hsome)) := resolve_value w vals res x l Hx in
                 conj Hsome
                   (match Hsome with
                    | ex_intro _ v Hv =>
                        eq_trans
                          (prefix_lookup_Some _ _ _ _ (eq_trans Hval Hv) Hpre)
                          (eq_sym Hv)
                    end))
              _ _ Hc) as [[cache_v Hv] Hread].
  exists cache_v. split; [done |].
  unfold TensorOp.backward, read_pyval; simpl.
  rewrite Hread, Hv. unfold checked, rbind.
  by destruct (_backward (__class__ self) upstream cache_v kwargs).
Qed.

End Invocations.

Section InvocationProperties.
Context `{NumericBackend} `{!GraphRegistry}.

(** X5.  An invocation that raises, whatever the class, the arguments and
    the exception, leaves no trace but the advanced counter: nothing is
    registered in the graph, no Tensor is made, and the array objects and
    Tensors of the world are as they were.  ([add_op_to_graph] is called
    after [forward] has returned, and only then.) *)
Theorem failed_invocation_registers_nothing
    (cls : OpClass) (args : list pyarg) (kwargs : gmap string num)
    (w w' : world) (e : exn) :
  wf_world w ->
  TensorOp.__new__ cls args kwargs w = (Raise e, w') ->
  graph w' = graph w
  /\ tensors w' = tensors w
  /\ op_count w' = op_count w + 1
  /\ (forall l a, arrays w !! l = Some a -> arrays w' !! l = Some a)
  /\ wf_world w'.
Proof.
  intros Hw Hnew. rewrite new_eval in Hnew.
  destruct (TensorOp.forward _ _ _ _) as [r w2] eqn:Hf.
  destruct (forward_cases _ _ _ _ _ _ (wf_world_bump w Hw) Hf)
    as [(e' & ext & -> & ->) | (ts & vals & res & d & c & _ & _ & _ & _ & _ & -> & _)];
    [| done].
  injection Hnew as <- <-.
  split_and!; try done.
  - intros l a Hl; simpl. by apply lookup_app_l_Some.
  - by apply (wf_world_extend (bump w)).
Qed.

(** X6.  An invocation that returns extends the world and keeps it
    well-formed: the Tensor returned is the one new Tensor, it holds an
    array, every Tensor that existed holds the array it held, and the
    counter has advanced by one.  So the output of one invocation is a
    valid input of the next. *)
Theorem completed_invocation_extends_world
    (cls : OpClass) (args : list pyarg) (kwargs : gmap string num)
    (w w' : world) (out : tid) :
  wf_world w ->
  TensorOp.__new__ cls args kwargs w = (Ok out, w') ->
  wf_world w'
  /\ out = length (tensors w)
  /\ length (tensors w') = S (length (tensors w))
  /\ op_count w' = op_count w + 1
  /\ is_Some (tensor_value w' out)
  /\ (forall t a, tensor_value w t = Some a -> tensor_value w' t = Some a).
Proof.
  intros Hw Hnew. rewrite new_eval in Hnew.
  destruct (TensorOp.forward _ _ _ _) as [r w2] eqn:Hf.
  destruct (forward_cases _ _ _ _ _ _ (wf_world_bump w Hw) Hf)
    as [(e' & ext & -> & ->) | (ts & vals & res & d & c & _ & _ & _ & Hd & _ & -> & ->)];
    [done |].
  injection Hnew as <- <-.
  destruct (resolve_value (bump w) vals res (output res) d Hd) as (_ & Hval & [v Hv]).
  assert (Hlook : ((arrays w ++ copies vals) ++ created res) !! d = Some v).
  { rewrite <- app_assoc, <- Hv. exact Hval. }
  split_and!; try done.
  - unfold wf_world; simpl. apply Forall_app. split.
    + eapply Forall_impl; [exact Hw |]. intros T HT; simpl in *.
      rewrite !length_app. lia.
    + repeat constructor; simpl. by eapply lookup_lt_Some.
  - simpl. rewrite length_app. simpl. lia.
  - unfold tensor_value; simpl.
    rewrite lookup_app_r, Nat.sub_diag by lia. simpl. by eexists.
  - intros t a. unfold tensor_value; simpl.
    destruct (tensors w !! t) as [T|] eqn:HT; [| done].
    rewrite (lookup_app_l_Some _ _ _ _ HT). intros Ha.
    by do 2 apply lookup_app_l_Some.
Qed.

(** a name without a colon, followed by a colon, is read back *)
Lemma colon_separates n1 n2 s1 s2 :
  contains_colon n1 = false -> contains_colon n2 = false ->
  (n1 ++ ":" ++ s1 = n2 ++ ":" ++ s2)%string -> n1 = n2 /\ s1 = s2.
Proof.
  revert n2. induction n1 as [|a n1 IH]; intros [|b n2] H1 H2 Heq; simpl in *.
  - by injection Heq.
  - injection Heq as <- _. by rewrite decide_True in H2.
  - injection Heq as -> _. by rewrite decide_True in H1.
  - injection Heq as -> Heq.
    destruct (decide (String b "" = ":")); [done |].
    destruct (IH n2 H1 H2 Heq) as [-> ->]. done.
Qed.

(** X7.  [get_unique_id] hands out the successor of the counter and
    stores it, and the name [__init__] gives an instance determines both
    the class name and that number: two instances, of classes whose names
    contain no colon, that differ in class name or were initialised at
    different counter values have different names. *)
Theorem instance_names_are_unique
    (cls1 cls2 : OpClass) (w1 w2 w1' w2' : world) (i1 i2 : instance) :
  contains_colon (__name__ cls1) = false ->
  contains_colon (__name__ cls2) = false ->
  TensorOp.__init__ (TensorOp.object_new cls1) w1 = (Ok i1, w1') ->
  TensorOp.__init__ (TensorOp.object_new cls2) w2 = (Ok i2, w2') ->
  op_count w1' = op_count w1 + 1
  /\ TensorOp.get_unique_id w1 = (Ok (op_count w1 + 1), w1')
  /\ (__name__ cls1 <> __name__ cls2 \/ op_count w1 <> op_count w2 ->
      name i1 <> name i2).
Proof.
  intros Hc1 Hc2 Hi1 Hi2. rewrite init_eval in Hi1, Hi2.
  injection Hi1 as <- <-. injection Hi2 as <- <-.
  split_and!; [done | done |].
  intros Hdiff Heq. simpl in Heq.
  injection Heq as Heq.
  apply colon_separates in Heq as [Hn Hp]; [| done | done].
  apply (inj pretty) in Hp.
  destruct Hdiff as [Hd | Hd]; [done | lia].
Qed.

(** X8.  A subclass that does not define [_forward] cannot be invoked:
    the inherited method evaluates [NotImplemented(...)], which is not
    callable, so the invocation on Tensors raises a type error (not a
    [NotImplementedError]), after the counter was advanced and the data
    copied, and registers nothing.  In the same way [backward] on an
    instance of a class that inherits [_backward] raises a type error. *)
Theorem inherited_methods_raise_type_error
    (cls : OpClass) (ts : list tid) (vals : list ndarray) (kwargs : gmap string num)
    (w : world) (self : instance) (upstream : ndarray)
    (c : pyval loc) (cache_v : pyval ndarray) :
  wf_world w ->
  Forall2 (fun t a => tensor_value w t = Some a) ts vals ->
  (_forward cls = TensorOp._forward ->
   TensorOp.__new__ cls (ATensor <$> ts) kwargs w =
     (Raise (TypeError "'NotImplementedType' object is not callable"),
      extend (bump w) (copies vals)))
  /\ (_backward (__class__ self) = TensorOp._backward ->
      self_cache self = Some c -> self_kwargs self = Some kwargs ->
      read_pyval w c = Some cache_v ->
      exists msg, TensorOp.backward self upstream w = Raise (TypeError msg)).
Proof.
  intros Hw Hts. split.
  - intros Hcls.
    rewrite new_eval, (forward_eval _ ts vals kwargs (bump w) Hw Hts). simpl.
    by rewrite Hcls.
  - intros Hcls Hc Hk Hr. unfold TensorOp.backward.
    rewrite Hc, Hk, Hr, Hcls. unfold TensorOp._backward.
    case_decide; by eexists.
Qed.

(** X9.  [backward] hands to the gradient computation what [forward]
    stored: on the instance of a completed [forward], in the world it left
    or in any later world with more array objects, [backward] is the
    checked result of [_backward] applied to the upstream gradient, to the
    cache [_forward] returned (its arrays by value) and to the keyword
    parameters of the invocation.  It never fails for a missing
    attribute. *)
Theorem backward_uses_forward_cache
    (self self' : instance) (args : list pyarg) (kwargs : gmap string num)
    (w w' : world) (v : pyarg) :
  wf_world w ->
  TensorOp.forward self args kwargs w = (Ok (self', v), w') ->
  exists values res cache_v,
    Forall2 (fun x a => exists t a0,
               x = ATensor t /\ tensor_value w t = Some a0 /\ a = float32_copy a0)
      args values
    /\ _forward (__class__ self) values kwargs = Ok res
    /\ pyval_mapM (value_of values res) (cache res) = Some cache_v
    /\ forall w2 upstream,
         arrays w' `prefix_of` arrays w2 ->
         TensorOp.backward self' upstream w2 =
           checked (_backward (__class__ self) upstream cache_v kwargs).
Proof.
  intros Hw Hf.
  destruct (forward_cases _ _ _ _ _ _ Hw Hf)
    as [(e & ext & ? & _) | (ts & vals & res & d & c & -> & Hts & Hres & Hd & Hc & Hr & ->)];
    [done |].
  injection Hr as -> _.
  assert (Hcache : exists cache_v,
            pyval_mapM (value_of (float32_copy <$> vals) res) (cache res) = Some cache_v).
  { destruct (backward_after_forward self vals kwargs w res c
                (extend (extend w (copies vals)) (created res))
                (mk_array [] []) Hc) as (cache_v & Hv & _); [| by exists cache_v].
    simpl. by rewrite app_assoc. }
  destruct Hcache as [cache_v Hv].
  exists (float32_copy <$> vals), res, cache_v. split_and!; try done.
  - apply Forall2_fmap. clear -Hts.
    induction Hts as [|t a ts vals Ht _ IH]; constructor; [| done].
    by exists t, a.
  - intros w2 upstream Hpre.
    destruct (backward_after_forward self vals kwargs w res c w2 upstream Hc)
      as (cache_v' & Hv' & Hb).
    + simpl in Hpre. by rewrite app_assoc.
    + rewrite Hv in Hv'. by injection Hv' as <-.
Qed.

End InvocationProperties.

Section PowerInvocations.
Context `{NumericBackend} `{!GraphRegistry}.

Lemma Power_backward_checked upstream cache_v kwargs :
  checked (Power._backward upstream cache_v kwargs) =
  Power._backward upstream cache_v kwargs.
Proof.
  unfold Power._backward.
  destruct (Power.scalar_exponent kwargs) as [e|]; simpl; [| done].
  destruct cache_v; try done.
  by destruct (np_mul _ upstream).
Qed.

(** X10.  The exponent of an invocation of [Power] reaches its gradient.
    Invoked on a Tensor that holds [A] with the keyword
    [scalar_exponent=e], [Power] returns a new Tensor that holds the
    float32 copy of [A] raised to [e], registers the instance with that one
    input, and [backward] on the instance is the gradient computation of
    [Power] on the float32 copy of [A] with the same exponent [e]. *)
Theorem Power_invocation_keeps_exponent
    (t : tid) (A upstream : ndarray) (e : num) (w : world) :
  wf_world w -> tensor_value w t = Some A ->
  exists self' w',
    TensorOp.__new__ Power.cls [ATensor t] {[ "scalar_exponent" := e ]} w =
      (Ok (length (tensors w)), w')
    /\ graph w' = add_op_to_graph self' [t] (length (tensors w)) (graph w)
    /\ tensor_value w' (length (tensors w)) = Some (np_pow_scalar (float32_copy A) e)
    /\ TensorOp.backward self' upstream w' =
         rmap (fun g => PTuple [PArr g])
           (np_mul (np_scalar_mul e (np_pow_scalar (float32_copy A) (nsub e (pyint 1))))
                   upstream).
Proof.
  intros Hw Ht.
  assert (Hts : Forall2 (fun t a => tensor_value w t = Some a) [t] [A])
    by (repeat constructor; done).
  assert (Hkw : Power.scalar_exponent {[ "scalar_exponent" := e ]} = Ok e).
  { unfold Power.scalar_exponent.
    rewrite decide_True by (by rewrite dom_singleton_L).
    by rewrite lookup_singleton_eq. }
  assert (Hres : _forward Power.cls (float32_copy <$> [A]) {[ "scalar_exponent" := e ]} =
            Ok {| created := [np_pow_scalar (float32_copy A) e];
                  output := New 0; cache := PArr (Arg 0) |}).
  { simpl. unfold Power._forward. by rewrite Hkw. }
  eexists _, _. split_and!.
  - eapply (new_success Power.cls [t] [A] _ w _ _ _ Hw Hts Hres); reflexivity.
  - reflexivity.
  - unfold tensor_value; simpl.
    rewrite lookup_app_r, Nat.sub_diag by lia. simpl.
    rewrite lookup_app_r by (rewrite length_app; simpl; lia).
    rewrite length_app. simpl.
    by replace (length (arrays w) + 2 - (length (arrays w) + 2)) with 0 by lia.
  - destruct (backward_after_forward (initialised Power.cls w) [A]
                {[ "scalar_exponent" := e ]} (bump w)
                {| created := [np_pow_scalar (float32_copy A) e];
                   output := New 0; cache := PArr (Arg 0) |}
                (PArr (S (length (arrays w))))
                (registered
                   (with_tensor
                      (extend (extend (bump w) (copies [A]))
                         [np_pow_scalar (float32_copy A) e])
                      {| Tensor.data := length (arrays w ++ copies [A]);
                         Tensor.grad := None; Tensor.name := "Power" |})
                   (with_attributes (initialised Power.cls w)
                      (PArr (S (length (arrays w)))) {[ "scalar_exponent" := e ]})
                   [t] (length (tensors w)))
                upstream eq_refl) as (cache_v & Hv & Hb).
    { simpl. by rewrite <- app_assoc. }
    simpl in Hv. injection Hv as <-.
    change (_backward (__class__ (initialised Power.cls w))) with Power._backward in Hb.
    rewrite Power_backward_checked in Hb.
    etransitivity; [exact Hb |]. simpl.
    unfold Power._backward. by rewrite Hkw.
Qed.

(** X11.  A second Tensor given to [Power] takes the place of the
    exponent in the forward computation only.  Invoked on two Tensors that
    hold [A] and [B] of equal shape, [Power] returns the elementwise power
    of the float32 copies and registers both Tensors as inputs; but
    [backward] then returns one gradient, not two, and computes it with the
    default exponent 2, whatever [B] holds. *)
Theorem Power_second_tensor_is_exponent
    (ta tb : tid) (A B upstream : ndarray) (w : world) :
  wf_world w -> tensor_value w ta = Some A -> tensor_value w tb = Some B ->
  wf_array A -> wf_array B -> shape A = shape B ->
  exists self' w',
    TensorOp.__new__ Power.cls [ATensor ta; ATensor tb] ∅ w =
      (Ok (length (tensors w)), w')
    /\ graph w' = add_op_to_graph self' [ta; tb] (length (tensors w)) (graph w)
    /\ tensor_value w' (length (tensors w)) =
         Some (mk_array (shape A) (zip_with npow (f32 <$> data A) (f32 <$> data B)))
    /\ TensorOp.backward self' upstream w' =
         rmap (fun g => PTuple [PArr g])
           (np_mul (np_scalar_mul (pyint 2)
                      (np_pow_scalar (float32_copy A) (nsub (pyint 2) (pyint 1))))
                   upstream).
Proof.
  intros Hw Hta Htb HA HB Hs.
  assert (Hts : Forall2 (fun t a => tensor_value w t = Some a) [ta; tb] [A; B])
    by (repeat constructor; done).
  assert (Hdef : Power.scalar_exponent ∅ = Ok (pyint 2)).
  { unfold Power.scalar_exponent.
    rewrite decide_True by (rewrite dom_empty_L; set_solver).
    by rewrite lookup_empty. }
  set (o := mk_array (shape A) (zip_with npow (f32 <$> data A) (f32 <$> data B))).
  assert (Hres : _forward Power.cls (float32_copy <$> [A; B]) ∅ =
            Ok {| created := [o]; output := New 0; cache := PArr (Arg 0) |}).
  { simpl. unfold Power._forward. rewrite decide_True by done.
    rewrite elementwise_same_shape; [done | | | by simpl].
    - unfold wf_array; simpl. by rewrite length_fmap.
    - unfold wf_array; simpl. by rewrite length_fmap. }
  eexists _, _. split_and!.
  - eapply (new_success Power.cls [ta; tb] [A; B] _ w _ _ _ Hw Hts Hres); reflexivity.
  - reflexivity.
  - unfold tensor_value; simpl.
    rewrite lookup_app_r, Nat.sub_diag by lia. simpl.
    rewrite lookup_app_r by (rewrite length_app; simpl; lia).
    rewrite length_app. simpl.
    by replace (length (arrays w) + 4 - (length (arrays w) + 4)) with 0 by lia.
  - destruct (backward_after_forward (initialised Power.cls w) [A; B] ∅ (bump w)
                {| created := [o]; output := New 0; cache := PArr (Arg 0) |}
                (PArr (S (length (arrays w))))
                (registered
                   (with_tensor
                      (extend (extend (bump w) (copies [A; B])) [o])
                      {| Tensor.data := length (arrays w ++ copies [A; B]);
                         Tensor.grad := None; Tensor.name := "Power" |})
                   (with_attributes (initialised Power.cls w)
                      (PArr (S (length (arrays w)))) ∅)
                   [ta; tb] (length (tensors w)))
                upstream eq_refl) as (cache_v & Hv & Hb).
    { simpl. by rewrite <- app_assoc. }
    simpl in Hv. injection Hv as <-.
    change (_backward (__class__ (initialised Power.cls w))) with Power._backward in Hb.
    rewrite Power_backward_checked in Hb.
    etransitivity; [exact Hb |]. simpl.
    unfold Power._backward. by rewrite Hdef.
Qed.

End PowerInvocations.

(** * More of the protocol on concrete worlds *)

Lemma failed_invocation_registers_nothing_witness :
  let w := Exact.leaves [Exact.array [0] []] in
  exists w',
    TensorOp.__new__ Mean.cls [ATensor 0] ∅ w = (Raise AssertionError, w')
    /\ graph w' = graph w
    /\ tensors w' = tensors w
    /\ op_count w' = op_count w + 1
    /\ (forall l a, arrays w !! l = Some a -> arrays w' !! l = Some a)
    /\ wf_world w'.
Proof.
  intros w.
  assert (Hw : wf_world w) by (repeat constructor).
  pose (w' := extend (bump w) (copies [Exact.array [0] []])).
  assert (Hnew : TensorOp.__new__ Mean.cls [ATensor 0] ∅ w = (Raise AssertionError, w'))
    by reflexivity.
  exists w'. split; [exact Hnew |].
  exact (failed_invocation_registers_nothing Mean.cls _ ∅ w w' _ Hw Hnew).
Defined.

Lemma completed_invocation_extends_world_witness :
  let w := Exact.leaves [Exact.vec [1; 2]%Z] in
  exists w',
    TensorOp.__new__ Sum.cls [ATensor 0] ∅ w = (Ok 1, w')
    /\ wf_world w'
    /\ tensor_value w' 1 = Some (Exact.scalar 3)
    /\ (forall t a, tensor_value w t = Some a -> tensor_value w' t = Some a).
Proof.
  intros w.
  assert (Hw : wf_world w) by (repeat constructor).
  pose (w' := registered
                (with_tensor
                   (extend (extend (bump w) (copies [Exact.vec [1; 2]%Z])) [Exact.scalar 3])
                   {| Tensor.data := 3; Tensor.grad := None; Tensor.name := "Sum" |})
                (with_attributes (initialised Sum.cls w) (PShape [2]) ∅) [0] 1).
  assert (Hnew : TensorOp.__new__ Sum.cls [ATensor 0] ∅ w = (Ok 1, w')) by reflexivity.
  destruct (completed_invocation_extends_world Sum.cls _ ∅ w w' 1 Hw Hnew)
    as (Hw' & _ & _ & _ & _ & Hkeep).
  exists w'. split_and!; [exact Hnew | exact Hw' | reflexivity | exact Hkeep].
Defined.

Lemma instance_names_are_unique_witness :
  let w1 := Exact.leaves [] in
  let w2 := bump w1 in
  name (initialised Add.cls w1) = "Op:Add:1"
  /\ name (initialised Add.cls w2) = "Op:Add:2"
  /\ name (initialised Add.cls w1) <> name (initialised Add.cls w2).
Proof.
  intros w1 w2.
  assert (Hdiff : __name__ (@Add.cls Exact.backend) <> __name__ (@Add.cls Exact.backend)
                  \/ op_count w1 <> op_count w2)
    by (right; simpl; lia).
  destruct (@instance_names_are_unique Exact.backend Exact.registry
              Add.cls Add.cls w1 w2 (bump w1) (bump w2)
              (initialised Add.cls w1) (initialised Add.cls w2)
              eq_refl eq_refl eq_refl eq_refl) as (_ & _ & Hne).
  split_and!; [reflexivity | reflexivity | exact (Hne Hdiff)].
Defined.

Lemma inherited_methods_raise_type_error_witness :
  let w := Exact.leaves [Exact.vec [1; 2]%Z] in
  TensorOp.__new__ TensorOp.cls [ATensor 0] ∅ w =
    (Raise (TypeError "'NotImplementedType' object is not callable"),
     extend (bump w) (copies [Exact.vec [1; 2]%Z])).
Proof.
  intros w.
  assert (Hw : wf_world w) by (repeat constructor).
  assert (Hts : Forall2 (fun t a => tensor_value w t = Some a) [0] [Exact.vec [1; 2]%Z])
    by (repeat constructor).
  exact (proj1 (inherited_methods_raise_type_error TensorOp.cls [0] _ ∅ w
                  (initialised TensorOp.cls w) (Exact.scalar 1) PNone PNone Hw Hts)
           eq_refl).
Defined.

Lemma backward_uses_forward_cache_witness :
  let w := Exact.leaves [Exact.vec [1; 2]%Z] in
  let self' := with_attributes (initialised Power.cls w) (PArr 2) ∅ in
  let w' := with_tensor
              (extend (extend w (copies [Exact.vec [1; 2]%Z])) [Exact.vec [1; 4]%Z])
              {| Tensor.data := 3; Tensor.grad := None; Tensor.name := "Power" |} in
  TensorOp.forward (initialised Power.cls w) [ATensor 0] ∅ w = (Ok (self', ATensor 1), w')
  /\ TensorOp.backward self' (Exact.vec [1; 1]%Z) (extend w' [Exact.scalar 7]) =
       Ok (PTuple [PArr (Exact.vec [2; 4]%Z)]).
Proof.
  intros w self' w'.
  assert (Hw : wf_world w) by (repeat constructor).
  assert (Hf : TensorOp.forward (initialised Power.cls w) [ATensor 0] ∅ w
               = (Ok (self', ATensor 1), w')) by reflexivity.
  split; [exact Hf |].
  destruct (backward_uses_forward_cache _ self' _ ∅ w w' _ Hw Hf)
    as (values & res & cache_v & Hvals & Hres & Hv & Hb).
  apply Forall2_cons_inv_l in Hvals as (a & vs & (t & a0 & Ht & Ha0 & ->) & Hnil & ->).
  apply Forall2_nil_inv_l in Hnil as ->.
  injection Ht as <-. injection Ha0 as <-.
  injection Hres as <-. injection Hv as <-.
  rewrite Hb; [reflexivity |].
  by apply prefix_app_r.
Defined.

Lemma Power_invocation_keeps_exponent_witness :
  let w := Exact.leaves [Exact.vec [1; 2]%Z] in
  exists self' w',
    TensorOp.__new__ Power.cls [ATensor 0] {[ "scalar_exponent" := 3%Q ]} w = (Ok 1, w')
    /\ tensor_value w' 1 = Some (Exact.vec [1; 8]%Z)
    /\ TensorOp.backward self' (Exact.vec [1; 1]%Z) w' =
         Ok (PTuple [PArr (Exact.vec [3; 12]%Z)]).
Proof.
  intros w.
  assert (Hw : wf_world w) by (repeat constructor).
  destruct (Power_invocation_keeps_exponent 0 (Exact.vec [1; 2]%Z) (Exact.vec [1; 1]%Z)
              3%Q w Hw eq_refl) as (self' & w' & Hnew & _ & Hout & Hb).
  exists self', w'. split_and!; [exact Hnew | exact Hout | exact Hb].
Defined.

Lemma Power_second_tensor_is_exponent_witness :
  let w := Exact.leaves [Exact.vec [2; 3]%Z; Exact.vec [3; 1]%Z] in
  exists self' w',
    TensorOp.__new__ Power.cls [ATensor 0; ATensor 1] ∅ w = (Ok 2, w')
    /\ tensor_value w' 2 = Some (Exact.vec [8; 3]%Z)
    /\ TensorOp.backward self' (Exact.vec [1; 1]%Z) w' =
         Ok (PTuple [PArr (Exact.vec [4; 6]%Z)]).
Proof.
  intros w.
  assert (Hw : wf_world w) by (repeat constructor).
  destruct (Power_second_tensor_is_exponent 0 1 (Exact.vec [2; 3]%Z) (Exact.vec [3; 1]%Z)
              (Exact.vec [1; 1]%Z) w Hw eq_refl eq_refl eq_refl eq_refl eq_refl)
    as (self' & w' & Hnew & _ & Hout & Hb).
  exists self', w'. split_and!; [exact Hnew | exact Hout | exact Hb].
Defined.

(** * The gradient tuples of the built-in operations *)

(** X12.  [backward] does not compare the length of the gradient tuple
    with the number of inputs, and for the built-in operations it need
    not: the forward computation of each accepts only as many arrays as
    the operation is meant for ([Power] also a second one, in place of its
    exponent), and whenever its gradient computation returns, it returns a
    tuple of that many arrays.  So [backward] never raises its own type
    error on a built-in operation. *)
Theorem builtin_gradients_fit_inputs `{NumericBackend} (cls : OpClass) (n : nat) :
  builtin cls n ->
  (forall args kwargs r,
     _forward cls args kwargs = Ok r ->
     length args = n \/ (__name__ cls = "Power" /\ length args = 2))
  /\ (forall upstream c kwargs grads,
        _backward cls upstream c kwargs = Ok grads ->
        exists l, grads = PTuple l /\ length l = n
                  /\ Forall (fun v => exists a, v = PArr a) l)
  /\ (forall upstream c kwargs,
        checked (_backward cls upstream c kwargs) = _backward cls upstream c kwargs).
Proof.
  assert (Hchecked : forall r : result (pyval ndarray),
            (forall grads, r = Ok grads -> exists l, grads = PTuple l) -> checked r = r).
  { intros [grads|e] Hr; [| done]. by destruct (Hr grads eq_refl) as [l ->]. }
  intros Hb.
  assert (Hback : forall upstream c kwargs grads,
            _backward cls upstream c kwargs = Ok grads ->
            exists l, grads = PTuple l /\ length l = n
                      /\ Forall (fun v => exists a, v = PArr a) l).
  { intros upstream c kwargs grads.
    destruct Hb; simpl;
      unfold Add._backward, Subtract._backward, Power._backward, Exp._backward,
        MatMul._backward, Sum._backward, Mean._backward, rbind;
      intros Hg; repeat case_match; simplify_eq;
      eexists; split_and!; try done; repeat constructor; by eexists. }
  split_and!; [| exact Hback |].
  - intros args kwargs r.
    destruct Hb; simpl;
      unfold Add._forward, Subtract._forward, Power._forward, Exp._forward,
        MatMul._forward, Sum._forward, Mean._forward;
      destruct args as [|a1 [|a2 [|a3 args]]]; simpl; try done; auto.
  - intros upstream c kwargs. apply Hchecked.
    intros grads Hg. destruct (Hback _ _ _ _ Hg) as (l & -> & _). by exists l.
Qed.

Lemma builtin_gradients_fit_inputs_witness :
  exists l,
    _backward (@Subtract.cls Exact.backend) (Exact.vec [1; 1]%Z) (PTuple []) ∅ =
      Ok (PTuple l)
    /\ length l = 2
    /\ Forall (fun v => exists a, v = PArr a) l.
Proof.
  destruct (@builtin_gradients_fit_inputs Exact.backend Subtract.cls 2 builtin_Subtract)
    as (_ & Hback & _).
  assert (Hg : _backward (@Subtract.cls Exact.backend) (Exact.vec [1; 1]%Z) (PTuple []) ∅ =
               Ok (PTuple [PArr (Exact.vec [1; 1]%Z); PArr (Exact.vec [-1; -1]%Z)]))
    by reflexivity.
  destruct (Hback _ _ _ _ Hg) as (l & Hl & Hlen & Harr).
  exists l. split_and!; [by rewrite <- Hl | exact Hlen | exact Harr].
Defined.
